(** * Rural and urban population per municipio: a model of
      [rural_urban_pop_by_dept.py]

    The script clips a land-use raster and a series of Landscan population
    rasters to a bounding box, splits each population raster into a rural
    and an urban grid, sums both grids per zone polygon and writes one CSV
    row per zone and year.

    The geospatial libraries (fiona, rasterio, rasterstats) and [glob] are
    not part of the script: they appear here as the fields of an
    environment record, each call returning a value or raising.  The
    script's own code (string handling, [np.where] selections, the pairing
    of zones with statistics, the order of reads and writes) is embedded
    definition by definition. *)

From Stdlib Require Import ZArith Lia Ascii.
From stdpp Require Import base list strings gmap sorting.

Local Open Scope Z_scope.

(** ** Python strings: [str.split] *)

Module PyStr.

(** [strip_prefix p s] is [Some r] when [s] is [p] followed by [r]. *)
Fixpoint strip_prefix (p s : string) : option string :=
  match p, s with
  | EmptyString, _ => Some s
  | String a p', String b s' =>
      if Ascii.eqb a b then strip_prefix p' s' else None
  | String _ _, EmptyString => None
  end.

(** The text before and after the leftmost occurrence of [sep] in [s]. *)
Fixpoint split_first (sep s : string) : option (string * string) :=
  match strip_prefix sep s with
  | Some rest => Some (EmptyString, rest)
  | None =>
      match s with
      | EmptyString => None
      | String c s' =>
          match split_first sep s' with
          | Some (a, b) => Some (String c a, b)
          | None => None
          end
      end
  end.

(** [s.split(sep, 1)]: at most one cut, at the leftmost occurrence. *)
Definition split1 (sep s : string) : list string :=
  match split_first sep s with
  | Some (a, b) => [a; b]
  | None => [s]
  end.

Fixpoint split_fuel (n : nat) (sep s : string) : list string :=
  match n with
  | O => [s]
  | S n' =>
      match split_first sep s with
      | Some (a, b) => a :: split_fuel n' sep b
      | None => [s]
      end
  end.

(** [s.split(sep)] for a non-empty [sep]: every cut removes at least one
    character, so [String.length s] rounds are enough. *)
Definition split (sep s : string) : list string :=
  split_fuel (String.length s) sep s.

(** [sep] occurs in [s] at offset [n]. *)
Definition occurs_at (sep s : string) (n : nat) : Prop :=
  ∃ a b, s = a +:+ sep +:+ b ∧ String.length a = n.

(** [s] is [a], then the leftmost occurrence of [sep], then [b]. *)
Definition first_cut (sep s a b : string) : Prop :=
  s = a +:+ sep +:+ b ∧
  ∀ n, occurs_at sep s n → (String.length a ≤ n)%nat.

End PyStr.

(** ** numpy arrays

    A raster read by [rasterio.mask.mask] is a 3-D array indexed by band,
    row and column.  It is modelled as a list of bands, each a list of
    rows; numpy arrays are rectangular, and the shape is read off the
    first band and its first row.  Pixel values are integers: land-use
    classes and Landscan head counts, whose sums are exact. *)

Module NumPy.

Abbreviation grid A := (list (list A)) (only parsing).
Abbreviation ndarray A := (list (list (list A))) (only parsing).

(** The shape, read off the first band and its first row.  A list of
    bands stands for an array without an empty axis: numpy keeps the
    lengths of the inner axes of an array that has no band or no row,
    a list does not, and [shape] then reads 0 for them. *)
Definition shape {A} (a : ndarray A) : nat * nat * nat :=
  (length a, length (hd [] a), length (hd [] (hd [] a))).

(** Every band has [h] rows and every row [w] columns. *)
Definition rect {A} (a : ndarray A) : Prop :=
  ∀ b, b ∈ a →
    length b = (shape a).1.2 ∧ ∀ r, r ∈ b → length r = (shape a).2.

(** [a[i, j, k]], with [d] standing for positions outside the lists. *)
Definition item {A} (d : A) (a : ndarray A) (i j k : nat) : A :=
  nth k (nth j (nth i a []) []) d.

Definition item2 {A} (d : A) (g : grid A) (j k : nat) : A :=
  nth k (nth j g []) d.

(** [tabulate n f] is [[f 0; ...; f (n - 1)]]. *)
Definition tabulate {A} (n : nat) (f : nat → A) : list A :=
  f <$> seq 0 n.

(** Broadcasting of one axis: equal lengths, or one of them is 1. *)
Definition bdim (m n : nat) : option nat :=
  if decide (m = n) then Some m
  else if decide (m = 1%nat) then Some n
  else if decide (n = 1%nat) then Some m
  else None.

Definition bshape (s t : nat * nat * nat) : option (nat * nat * nat) :=
  match bdim s.1.1 t.1.1, bdim s.1.2 t.1.2, bdim s.2 t.2 with
  | Some b, Some h, Some w => Some (b, h, w)
  | _, _, _ => None
  end.

(** The index read along an axis of length [dim]: a stretched axis of
    length 1 always reads its only entry. *)
Definition bidx (dim i : nat) : nat :=
  if decide (dim = 1%nat) then 0%nat else i.

(** [a == v] for a scalar [v]. *)
Definition eq_scalar (a : ndarray Z) (v : Z) : ndarray bool :=
  (λ band : grid Z,
     (λ row : list Z, (λ x, bool_decide (x = v)) <$> row) <$> band) <$> a.

(** [np.where(cond, x, y)] for arrays [cond], [x] and a scalar [y];
    [None] is numpy's [ValueError] for shapes that do not broadcast. *)
Definition where_ (cond : ndarray bool) (x : ndarray Z) (y : Z)
  : option (ndarray Z) :=
  let sc := shape cond in
  let sx := shape x in
  match bshape sc sx with
  | None => None
  | Some (b, h, w) =>
      Some (tabulate b (λ i, tabulate h (λ j, tabulate w (λ k,
        if item false cond (bidx sc.1.1 i) (bidx sc.1.2 j) (bidx sc.2 k)
        then item 0 x (bidx sx.1.1 i) (bidx sx.1.2 j) (bidx sx.2 k)
        else y))))
  end.

End NumPy.

(** ** Values, exceptions and the effects of the script *)

Module Py.

(** The Python values that reach the CSV writer. *)
Inductive pyval : Type :=
| PyNone
| PyNum (z : Z)
| PyStr (s : string).

(** What a statement of the script can raise: an error of one of the
    libraries (of type [Err], handed on as it is), or one of the
    interpreter's own. *)
Inductive exn (Err : Type) : Type :=
| LibError (e : Err)
| KeyError (key : string)
| IndexError
| ValueError.
Arguments LibError {Err} e.
Arguments KeyError {Err} key.
Arguments IndexError {Err}.
Arguments ValueError {Err}.

Inductive outcome (E A : Type) : Type :=
| Raise (e : E)
| Return (a : A).
Arguments Raise {E A} e.
Arguments Return {E A} a.

#[export] Instance outcome_ret {E} : MRet (outcome E) := λ A a, Return a.
#[export] Instance outcome_bind {E} : MBind (outcome E) := λ A B f m,
  match m with
  | Raise e => Raise e
  | Return a => f a
  end.

(** [l[i]] on a Python list. *)
Definition index {Err A} (l : list A) (i : nat) : outcome (exn Err) A :=
  match l !! i with
  | Some x => Return x
  | None => Raise IndexError
  end.

(** [d[key]] on a Python dict. *)
Definition getitem {Err A} (d : gmap string A) (key : string)
  : outcome (exn Err) A :=
  match d !! key with
  | Some x => Return x
  | None => Raise (KeyError key)
  end.

(** A fiona feature: a geometry and a dict of properties. *)
Record Feature (Geometry : Type) : Type := mkFeature {
  geometry : Geometry;
  properties : gmap string pyval
}.
Arguments mkFeature {Geometry} _ _.
Arguments geometry {Geometry} _.
Arguments properties {Geometry} _.

(** One entry of the list returned by [zonal_stats(..., stats=['sum'])]:
    the dict [{'sum': v}]. *)
Record Stat : Type := mkStat { sum : pyval }.

(** A row of the CSV file: the fields in column order. *)
Abbreviation csv_row := (list pyval) (only parsing).

End Py.
(** ** The script *)

Module Script.
Import PyStr NumPy Py.

(** *** The libraries and the file system

    What the script calls but does not define.  [fiona_open path] stands
    for opening a vector file and reading its features in file order;
    [mask ds shapes] for [rasterio.mask.mask(ds, shapes, crop=True)];
    [zonal_stats fs g aff] for
    [rasterstats.zonal_stats(fs, g, affine=aff, stats=['sum'])];
    [open_w path] tells whether opening [path] for writing fails. *)
Record Env (Geometry Affine Dataset Err : Type) : Type := mkEnv {
  fiona_open : string → outcome Err (list (Feature Geometry));
  rasterio_open : string → outcome Err Dataset;
  mask : Dataset → list Geometry → outcome Err (ndarray Z * Affine);
  zonal_stats :
    list (Feature Geometry) → grid Z → Affine → outcome Err (list Stat);
  glob : string → list string;
  open_w : string → option Err
}.
Arguments mkEnv {Geometry Affine Dataset Err}.
Arguments fiona_open {Geometry Affine Dataset Err}.
Arguments rasterio_open {Geometry Affine Dataset Err}.
Arguments mask {Geometry Affine Dataset Err}.
Arguments zonal_stats {Geometry Affine Dataset Err}.
Arguments glob {Geometry Affine Dataset Err}.
Arguments open_w {Geometry Affine Dataset Err}.

(** A call into a library, with the arguments it was given. *)
Inductive call (Geometry Affine Dataset : Type) : Type :=
| FionaOpen (path : string)
| RasterioOpen (path : string)
| Mask (ds : Dataset) (shapes : list Geometry)
| ZonalStats (features : list (Feature Geometry)) (g : grid Z)
    (affine : Affine)
| Glob (pattern : string)
| OpenW (path : string).
Arguments FionaOpen {Geometry Affine Dataset}.
Arguments RasterioOpen {Geometry Affine Dataset}.
Arguments Mask {Geometry Affine Dataset}.
Arguments ZonalStats {Geometry Affine Dataset}.
Arguments Glob {Geometry Affine Dataset}.
Arguments OpenW {Geometry Affine Dataset}.

(** What a run changes: the rows of [rural_urban_pop.csv] and the log of
    library calls, oldest first. *)
Record World (Geometry Affine Dataset : Type) : Type := mkWorld {
  csv_file : list csv_row;
  calls : list (call Geometry Affine Dataset)
}.
Arguments mkWorld {Geometry Affine Dataset}.
Arguments csv_file {Geometry Affine Dataset}.
Arguments calls {Geometry Affine Dataset}.

(** Module-level constants. *)
Definition pop_dir : string := "data/".
Definition zones : string := "data/GTM_adm2.shp".
Definition rural_region : string := "data/rural.tif".

Definition fieldnames : list string :=
  ["id"; "name"; "year"; "rural_pop"; "urban_pop"].

(** [sorted] on a list of [str]: ascending in the order of [String.le],
    the lexicographic order on character codes. *)
Definition sorted (l : list string) : list string :=
  merge_sort String.le l.

Section Script.
Context {Geometry Affine Dataset Err : Type}.

(** A statement: it reads and changes the world and returns or raises. *)
Definition M (A : Type) : Type :=
  World Geometry Affine Dataset →
  outcome (exn Err) A * World Geometry Affine Dataset.

#[export] Instance M_ret : MRet M := λ A a w, (Return a, w).
#[export] Instance M_bind : MBind M := λ A B f m w,
  match m w with
  | (Raise e, w') => (Raise e, w')
  | (Return a, w') => f a w'
  end.

(** A computation without effects. *)
Definition pure {A} (o : outcome (exn Err) A) : M A := λ w, (o, w).

(** A library call: logged, and its error handed on unchanged. *)
Definition lib {A} (c : call Geometry Affine Dataset) (r : outcome Err A)
  : M A := λ w,
  (match r with
   | Raise e => Raise (LibError e)
   | Return a => Return a
   end,
   mkWorld (csv_file w) (calls w ++ [c])).

(** [for x in l: body(x)] *)
Fixpoint for_each {A} (l : list A) (body : A → M ()) : M () :=
  match l with
  | [] => mret ()
  | x :: l' => body x ;; for_each l' body
  end.

Variable env : Env Geometry Affine Dataset Err.

(** [open("rural_urban_pop.csv", 'w')]: the file is emptied when the
    open succeeds and left alone when it fails. *)
Definition open_write (path : string) : M () := λ w,
  match open_w env path with
  | Some e => (Raise (LibError e), mkWorld (csv_file w) (calls w ++ [OpenW path]))
  | None => (Return (), mkWorld [] (calls w ++ [OpenW path]))
  end.

Definition writerow (r : csv_row) : M () := λ w,
  (Return (), mkWorld (csv_file w ++ [r]) (calls w)).

(** [DictWriter.writeheader]: the field names as a row. *)
Definition writeheader : M () := writerow (PyStr <$> fieldnames).

(** [DictWriter._dict_to_list]: a key outside the field names is a
    [ValueError]; a missing key is written as the empty string. *)
Definition dict_to_list (t : gmap string pyval)
  : outcome (exn Err) csv_row :=
  if decide (dom t ⊆ list_to_set fieldnames)
  then Return ((λ key, default (PyStr "") (t !! key)) <$> fieldnames)
  else Raise ValueError.

(** [DictWriter.writerows] *)
Definition writerows (rowdicts : list (gmap string pyval)) : M () :=
  for_each rowdicts (λ t, r ← pure (dict_to_list t); writerow r).

(** Lines 24-37. *)
Definition get_pop_rasters : M (list string) :=
  let pattern := pop_dir +:+ "lspop*/hdr.adf" in
  rasters ← lib (Glob pattern) (Return (glob env pattern));
  mret (sorted rasters).

(** Line 88. *)
Definition year_of (pop_raster : string) : outcome (exn Err) string :=
  after ← index (split1 "lspop" pop_raster) 1;
  index (split "/hdr.adf" after) 0.

(** Lines 95-100: the dict of one zone. *)
Definition record (f : Feature Geometry) (rs us : Stat) (year : string)
  : outcome (exn Err) (gmap string pyval) :=
  i ← getitem (properties f) "ID_2";
  let t := <["id" := i]> (∅ : gmap string pyval) in
  n ← getitem (properties f) "NAME_2";
  let t := <["name" := n]> t in
  let t := <["year" := PyStr year]> t in
  let t := <["rural_pop" := sum rs]> t in
  let t := <["urban_pop" := sum us]> t in
  mret t.

(** Lines 93-101: the loop over [zip(features, rural_stats, urban_stats)],
    which stops with the shortest of the three lists. *)
Fixpoint records (year : string)
    (zs : list (Feature Geometry * (Stat * Stat)))
  : outcome (exn Err) (list (gmap string pyval)) :=
  match zs with
  | [] => mret []
  | (f, (rs, us)) :: zs' =>
      t ← record f rs us year;
      output ← records year zs';
      mret (t :: output)
  end.

(** Lines 72-104: what is done with a clipped population raster. *)
Definition aggregate (features : list (Feature Geometry))
    (r_img p_img : ndarray Z) (p_transform : Affine)
    (pop_raster : string) : M () :=
  rural_pop ← pure (from_option Return (Raise ValueError)
                      (where_ (eq_scalar r_img 1) p_img 0));
  urban_pop ← pure (from_option Return (Raise ValueError)
                      (where_ (eq_scalar r_img 0) p_img 0));
  rural0 ← pure (index rural_pop 0);
  rural_stats ← lib (ZonalStats features rural0 p_transform)
                    (zonal_stats env features rural0 p_transform);
  urban0 ← pure (index urban_pop 0);
  urban_stats ← lib (ZonalStats features urban0 p_transform)
                    (zonal_stats env features urban0 p_transform);
  year ← pure (year_of pop_raster);
  output ← pure (records year (zip features (zip rural_stats urban_stats)));
  writerows output.

(** Lines 66-104: the body of the loop over the population rasters. *)
Definition process (clip_box : list Geometry)
    (features : list (Feature Geometry)) (r_img : ndarray Z)
    (pop_raster : string) : M () :=
  pop ← lib (RasterioOpen pop_raster) (rasterio_open env pop_raster);
  '(p_img, p_transform) ← lib (Mask pop clip_box) (mask env pop clip_box);
  aggregate features r_img p_img p_transform pop_raster.

(** Lines 40-104. *)
Definition main : M () :=
  boundingbox ← lib (FionaOpen "data/ca_boundingbox.shp")
                    (fiona_open env "data/ca_boundingbox.shp");
  let clip_box := geometry <$> boundingbox in
  features ← lib (FionaOpen zones) (fiona_open env zones);
  rural ← lib (RasterioOpen rural_region) (rasterio_open env rural_region);
  '(r_img, r_transform) ← lib (Mask rural clip_box) (mask env rural clip_box);
  open_write "rural_urban_pop.csv";;
  writeheader;;
  pop_rasters ← get_pop_rasters;
  for_each pop_rasters (process clip_box features r_img).

End Script.

End Script.
(** ** Zonal sums *)

Module Zonal.
Import NumPy Py Script.

(** A pixel of a grid, by row and column. *)
Definition cell : Type := nat * nat.

Definition cell_value (g : grid Z) (c : cell) : Z := item2 0 g c.1 c.2.

(** The sum of a grid over a list of pixels. *)
Definition zone_sum (cells : list cell) (g : grid Z) : Z :=
  foldr (λ c acc, cell_value g c + acc) 0 cells.

(** Modelled from the spec: [rasterstats.zonal_stats], a third-party
    function, is not part of the script.  Section 4.4 step 3 describes it
    as the sum, per zone polygon, of the values of the pixels that fall
    within the polygon under the affine transform, one statistic per zone
    in zone order.  [cells_of f aff] stands for the pixels the library's
    rasterisation assigns to zone [f]; a zone without pixels sums to 0,
    one of the two conventions the spec allows. *)
Definition zonal_sum_stats {Geometry Affine Err : Type}
    (cells_of : Feature Geometry → Affine → list cell)
    (features : list (Feature Geometry)) (g : grid Z) (aff : Affine)
  : outcome Err (list Stat) :=
  Return ((λ f, mkStat (PyNum (zone_sum (cells_of f aff) g))) <$> features).

(** The pixel lies inside a grid of [h] rows and [w] columns. *)
Definition in_grid (h w : nat) (c : cell) : Prop :=
  (c.1 < h)%nat ∧ (c.2 < w)%nat.

(** The land-use classes that count: 0 is urban, 1 is rural. *)
Definition classified (v : Z) : bool := bool_decide (v = 0 ∨ v = 1).

End Zonal.

(** ** Vocabulary of the specification *)

Module Spec.
Import PyStr NumPy Py Script Zonal.

Definition header : csv_row := PyStr <$> fieldnames.

(** The CSV row of zone [f] for [year], given the zone's two statistics. *)
Definition zone_row {Geometry} (year : string) (f : Feature Geometry)
    (rs us : Stat) (row : csv_row) : Prop :=
  ∃ i n, properties f !! "ID_2" = Some i ∧
         properties f !! "NAME_2" = Some n ∧
         row = [i; n; PyStr year; sum rs; sum us].

(** The zone carries the two properties the script reads. *)
Definition has_keys {Geometry} (f : Feature Geometry) : Prop :=
  is_Some (properties f !! "ID_2") ∧ is_Some (properties f !! "NAME_2").

(** The character [c] does not occur in [s]. *)
Fixpoint lacks (c : Ascii.ascii) (s : string) : Prop :=
  match s with
  | EmptyString => True
  | String a s' => a ≠ c ∧ lacks c s'
  end.

(** The path that the pattern [data/lspop*/hdr.adf] matches with the
    star standing for [y]; a star never matches a slash. *)
Definition lspop_path (y : string) : string :=
  "data/lspop" +:+ y +:+ "/hdr.adf".

Definition is_digit (a : Ascii.ascii) : Prop :=
  (48 ≤ Ascii.nat_of_ascii a ≤ 57)%nat.

Fixpoint all_digits (s : string) : Prop :=
  match s with
  | EmptyString => True
  | String a s' => is_digit a ∧ all_digits s'
  end.

(** The number a string of decimal digits denotes. *)
Fixpoint number_acc (acc : nat) (s : string) : nat :=
  match s with
  | EmptyString => acc
  | String a s' => number_acc (10 * acc + (Ascii.nat_of_ascii a - 48)) s'
  end.

Definition number (s : string) : nat := number_acc 0 s.

(** A year written with exactly [n] decimal digits. *)
Definition fixed_width_year (n : nat) (y : string) : Prop :=
  String.length y = n ∧ all_digits y.

Section Effects.
Context {Geometry Affine Dataset Err : Type}.
Variable env : Env Geometry Affine Dataset Err.

(** One of the two zonal sums over a clipped population raster fails
    with [e], everything before it having succeeded. *)
Inductive sums_fail (features : list (Feature Geometry))
    (r_img p_img : ndarray Z) (aff : Affine) (e : Err) : Prop :=
| fails_rural rural_pop urban_pop rural0 :
    where_ (eq_scalar r_img 1) p_img 0 = Some rural_pop →
    where_ (eq_scalar r_img 0) p_img 0 = Some urban_pop →
    rural_pop !! 0%nat = Some rural0 →
    zonal_stats env features rural0 aff = Raise e →
    sums_fail features r_img p_img aff e
| fails_urban rural_pop urban_pop rural0 rural_stats urban0 :
    where_ (eq_scalar r_img 1) p_img 0 = Some rural_pop →
    where_ (eq_scalar r_img 0) p_img 0 = Some urban_pop →
    rural_pop !! 0%nat = Some rural0 →
    zonal_stats env features rural0 aff = Return rural_stats →
    urban_pop !! 0%nat = Some urban0 →
    zonal_stats env features urban0 aff = Raise e →
    sums_fail features r_img p_img aff e.

(** One of the library operations on the raster at [path] fails with
    [e]: opening it, clipping it, or one of the two zonal sums. *)
Inductive fails_with (clip_box : list Geometry)
    (features : list (Feature Geometry)) (r_img : ndarray Z)
    (path : string) (e : Err) : Prop :=
| fails_open :
    rasterio_open env path = Raise e →
    fails_with clip_box features r_img path e
| fails_mask pop :
    rasterio_open env path = Return pop →
    mask env pop clip_box = Raise e →
    fails_with clip_box features r_img path e
| fails_sums pop p_img aff :
    rasterio_open env path = Return pop →
    mask env pop clip_box = Return (p_img, aff) →
    sums_fail features r_img p_img aff e →
    fails_with clip_box features r_img path e.

(** The rasters a run opened, in the order it opened them. *)
Definition opened (cs : list (call Geometry Affine Dataset)) : list string :=
  omap (λ c, match c with RasterioOpen p => Some p | _ => None end) cs.

(** The calls made before the loop, when none of them fails. *)
Definition preamble_calls (boundingbox : list (Feature Geometry))
    (rural : Dataset) : list (call Geometry Affine Dataset) :=
  [FionaOpen "data/ca_boundingbox.shp"; FionaOpen zones;
   RasterioOpen rural_region; Mask rural (geometry <$> boundingbox);
   OpenW "rural_urban_pop.csv"; Glob "data/lspop*/hdr.adf"].

(** The reads that come before the output file is opened all succeed,
    and so does the open. *)
Definition preamble_ok (boundingbox features : list (Feature Geometry))
    (rural : Dataset) (r_img : ndarray Z) (r_transform : Affine) : Prop :=
  fiona_open env "data/ca_boundingbox.shp" = Return boundingbox ∧
  fiona_open env zones = Return features ∧
  rasterio_open env rural_region = Return rural ∧
  mask env rural (geometry <$> boundingbox) = Return (r_img, r_transform) ∧
  open_w env "rural_urban_pop.csv" = None.

(** The statement [m] ends with [res], having appended [rows] to the CSV
    file and [new] to the log of calls, whatever the file and the log
    held before. *)
Definition acts {A} (m : M (Err:=Err) A) (res : outcome (exn Err) A)
    (rows : list csv_row) (new : list (call Geometry Affine Dataset))
  : Prop :=
  ∀ w, m w = (res, mkWorld (csv_file w ++ rows) (calls w ++ new)).

(** A run of [for x in l: body(x)]: the rows and the calls of each round,
    up to and including a round that raises. *)
Inductive loop_run {A} (body : A → M (Err:=Err) ())
  : list A → outcome (exn Err) () → list (list csv_row) →
    list (list (call Geometry Affine Dataset)) → Prop :=
| loop_done : loop_run body [] (Return ()) [] []
| loop_step x l res rows new blocks news :
    acts (body x) (Return ()) rows new →
    loop_run body l res blocks news →
    loop_run body (x :: l) res (rows :: blocks) (new :: news)
| loop_abort x l e rows new :
    acts (body x) (Raise e) rows new →
    loop_run body (x :: l) (Raise e) [rows] [new].

(** Both selections and both zonal sums over a clipped population raster
    succeed, with the values named. *)
Definition sums_ok (features : list (Feature Geometry))
    (r_img p_img : ndarray Z) (aff : Affine)
    (rural0 urban0 : grid Z) (rural_stats urban_stats : list Stat) : Prop :=
  (∃ rural_pop urban_pop,
     where_ (eq_scalar r_img 1) p_img 0 = Some rural_pop ∧
     where_ (eq_scalar r_img 0) p_img 0 = Some urban_pop ∧
     rural_pop !! 0%nat = Some rural0 ∧
     urban_pop !! 0%nat = Some urban0) ∧
  zonal_stats env features rural0 aff = Return rural_stats ∧
  zonal_stats env features urban0 aff = Return urban_stats.

(** Every library operation on the raster at [path] succeeds, with the
    values named. *)
Definition year_reads (clip_box : list Geometry)
    (features : list (Feature Geometry)) (r_img : ndarray Z)
    (path : string) (pop : Dataset) (p_img : ndarray Z) (aff : Affine)
    (rural0 urban0 : grid Z) (rural_stats urban_stats : list Stat) : Prop :=
  rasterio_open env path = Return pop ∧
  mask env pop clip_box = Return (p_img, aff) ∧
  sums_ok features r_img p_img aff rural0 urban0 rural_stats urban_stats.

(** The rows of one year: zone by zone, in the order of [features], each
    zone with the statistics at its own position. *)
Definition year_rows (features : list (Feature Geometry))
    (rural_stats urban_stats : list Stat) (year : string)
    (rows : list csv_row) : Prop :=
  Forall2 (λ z row, zone_row year z.1 z.2.1 z.2.2 row)
    (zip features (zip rural_stats urban_stats)) rows.

(** The calls one round of the loop makes for the raster at [path]: it
    is opened once, clipped with [clip_box], and summed over
    [features]. *)
Definition year_calls (clip_box : list Geometry)
    (features : list (Feature Geometry)) (path : string)
    (new : list (call Geometry Affine Dataset)) : Prop :=
  ∃ rest, new = RasterioOpen path :: rest ∧
    ∀ c, c ∈ rest →
      (∃ ds, c = Mask ds clip_box) ∨ (∃ g aff, c = ZonalStats features g aff).

End Effects.

End Spec.

(** ** A small data set

    Two zones over a grid of two rows and four columns, the last column
    being no-data in the land-use raster; population rasters for 2010 and
    2012, and no readable raster for any other year. *)

Module Example.
Import NumPy Py Script Zonal.

Definition box : Feature nat := mkFeature 0%nat ∅.

Definition zone_a : Feature nat :=
  mkFeature 1%nat (<["ID_2" := PyNum 101]> {["NAME_2" := PyStr "Flores"]}).

Definition zone_b : Feature nat :=
  mkFeature 2%nat (<["ID_2" := PyNum 102]> {["NAME_2" := PyStr "Coban"]}).

Definition r_img : ndarray Z := [[[0; 0; 0; 3]; [1; 1; 0; 3]]].

Definition p2010 : ndarray Z := [[[10; 20; 30; 7]; [40; 50; 60; 9]]].

Definition p2012 : ndarray Z :=
  [[[11; 21; 31; 7]; [41; 51; 61; 9]]; [[1; 1; 1; 1]; [1; 1; 1; 1]]].

(** Zone A covers three urban and two rural pixels, zone B one urban and
    one no-data pixel. *)
Definition cells_of (f : Feature nat) (aff : ()) : list cell :=
  match geometry f with
  | 1%nat => [(0, 0); (0, 1); (0, 2); (1, 0); (1, 1)]%nat
  | 2%nat => [(1, 2); (1, 3)]%nat
  | _ => []
  end.

Definition read_features (boxes : list (Feature nat)) (path : string)
  : outcome string (list (Feature nat)) :=
  if decide (path = "data/ca_boundingbox.shp") then Return boxes
  else if decide (path = zones) then Return [zone_a; zone_b]
  else Raise "no such file".

Definition clip (ds : string) (shapes : list nat)
  : outcome string (ndarray Z * ()) :=
  if decide (ds = rural_region) then Return (r_img, ())
  else if decide (ds = "data/lspop2010/hdr.adf") then Return (p2010, ())
  else if decide (ds = "data/lspop2012/hdr.adf") then Return (p2012, ())
  else Raise "not a raster".

(** The bounding-box file holds the features [boxes], and the file
    system the rasters [rasters], in directory order. *)
Definition env_with (boxes : list (Feature nat)) (rasters : list string)
  : Env nat () string string :=
  mkEnv (read_features boxes) Return clip (zonal_sum_stats cells_of)
    (λ _, rasters) (λ _, None).

(** The bounding-box file holds one box. *)
Definition env (rasters : list string) : Env nat () string string :=
  env_with [box] rasters.

(** The same, with a bounding box that lies outside the land-use
    raster: clipping it raises. *)
Definition env_outside (rasters : list string) : Env nat () string string :=
  mkEnv (read_features [box]) Return
    (λ ds shapes,
       if decide (ds = rural_region)
       then Raise "Input shapes do not overlap raster."
       else clip ds shapes)
    (zonal_sum_stats cells_of) (λ _, rasters) (λ _, None).

Definition fresh : World nat () string := mkWorld [] [].

(** A world in which an earlier run left a file behind. *)
Definition stale : World nat () string :=
  mkWorld [[PyStr "left"; PyStr "over"]] [].

End Example.

(** ** Further vocabulary: joining, counting calls, other inputs *)

Module More.
Import PyStr NumPy Py Script Zonal Spec.

(** [sep.join(pieces)] *)
Fixpoint join (sep : string) (pieces : list string) : string :=
  match pieces with
  | [] => EmptyString
  | [p] => p
  | p :: rest => p +:+ sep +:+ join sep rest
  end.

Definition is_mask {Geometry Affine Dataset}
    (c : call Geometry Affine Dataset) : bool :=
  match c with Mask _ _ => true | _ => false end.

Definition is_zonal {Geometry Affine Dataset}
    (c : call Geometry Affine Dataset) : bool :=
  match c with ZonalStats _ _ _ => true | _ => false end.

(** The environment [env] with another directory listing. *)
Definition with_glob {Geometry Affine Dataset Err}
    (env : Env Geometry Affine Dataset Err) (listing : string → list string)
  : Env Geometry Affine Dataset Err :=
  mkEnv (fiona_open env) (rasterio_open env) (mask env) (zonal_stats env)
    listing (open_w env).

(** The key whose lookup raises when the dict of the zone is built:
    ["ID_2"] is read first, then ["NAME_2"]. *)
Definition missing_key {Geometry} (f : Feature Geometry) : option string :=
  match properties f !! "ID_2", properties f !! "NAME_2" with
  | None, _ => Some "ID_2"
  | Some _, None => Some "NAME_2"
  | Some _, Some _ => None
  end.

(** A zone without a name. *)
Definition zone_c : Feature nat :=
  mkFeature 2%nat {["ID_2" := PyNum 103]}.

(** A population raster of three rows, one more than the land-use
    raster has. *)
Definition p2014 : ndarray Z :=
  [[[1; 2; 3; 4]; [5; 6; 7; 8]; [9; 10; 11; 12]]].

(** The example data with the zones [zs], a raster of the wrong shape
    for 2014, and zonal statistics that leave out the last [drop]
    zones. *)
Definition env_of (zs : list (Feature nat)) (drop : nat)
    (rasters : list string) : Env nat () string string :=
  mkEnv
    (λ path,
       if decide (path = "data/ca_boundingbox.shp") then Return [Example.box]
       else if decide (path = zones) then Return zs
       else Raise "no such file")
    Return
    (λ ds shapes,
       if decide (ds = "data/lspop2014/hdr.adf") then Return (p2014, ())
       else Example.clip ds shapes)
    (λ fs g aff,
       Return (take (length fs - drop)
                 ((λ f, mkStat (PyNum (zone_sum (Example.cells_of f aff) g)))
                    <$> fs)))
    (λ _, rasters) (λ _, None).

(** A second box for the bounding-box file. *)
Definition box7 : Feature nat := mkFeature 7%nat ∅.

(** The example data behind a clip that reads its shapes: it clips as
    [Example.clip] does when it is handed exactly the geometries
    [expected], and raises on any other list of shapes. *)
Definition env_strict (boxes : list (Feature nat)) (expected : list nat)
    (rasters : list string) : Env nat () string string :=
  mkEnv (Example.read_features boxes) Return
    (λ ds shapes,
       if decide (shapes = expected) then Example.clip ds shapes
       else Raise "Input shapes do not overlap raster.")
    (zonal_sum_stats Example.cells_of) (λ _, rasters) (λ _, None).

(** An array none of whose three axes has length 0.  On such an array,
    when it is rectangular, [shape] is the shape numpy keeps. *)
Definition nonempty {A} (a : ndarray A) : Prop :=
  (0 < (shape a).1.1)%nat ∧ (0 < (shape a).1.2)%nat ∧ (0 < (shape a).2)%nat.

End More.
(** ** Facts about [str.split] *)

Module PyStrFacts.
Import PyStr.

Lemma strip_prefix_app p r : strip_prefix p (p +:+ r) = Some r.
Proof.
  induction p as [|a p IH]; simpl; [by destruct r|].
  by rewrite Ascii.eqb_refl.
Qed.

Lemma strip_prefix_Some p s r : strip_prefix p s = Some r → s = p +:+ r.
Proof.
  revert s; induction p as [|a p IH]; intros [|b s]; simpl;
    [by intros [= <-]..|done|].
  destruct (Ascii.eqb a b) eqn:E; [|done].
  apply Ascii.eqb_eq in E as ->. intros ->%IH. done.
Qed.

Lemma strip_prefix_None p s :
  strip_prefix p s = None → ∀ r, s ≠ p +:+ r.
Proof.
  intros H r ->. by rewrite strip_prefix_app in H.
Qed.

Lemma split_first_Some sep s a b :
  split_first sep s = Some (a, b) → first_cut sep s a b.
Proof.
  revert a b; induction s as [|c s IH]; intros a b.
  - simpl. destruct (strip_prefix sep EmptyString) as [r|] eqn:E; [|done].
    intros [= <- <-]. apply strip_prefix_Some in E.
    split; [done|]. intros n _; simpl; lia.
  - cbn [split_first].
    destruct (strip_prefix sep (String c s)) as [r|] eqn:E.
    + intros [= <- <-]. apply strip_prefix_Some in E.
      split; [done|]. intros n _; simpl; lia.
    + destruct (split_first sep s) as [[a' b']|] eqn:Es; [|done].
      intros [= <- <-]. destruct (IH _ _ eq_refl) as [-> Hmin].
      split; [done|].
      intros n (x & y & Hxy & Hn).
      destruct x as [|c' x]; simpl in *.
      * exfalso. eapply strip_prefix_None; [exact E|exact Hxy].
      * injection Hxy as -> Hxy. subst n.
        apply le_n_S, Hmin. by exists x, y.
Qed.

Lemma split_first_None sep s :
  split_first sep s = None → ∀ n, ¬ occurs_at sep s n.
Proof.
  induction s as [|c s IH]; cbn [split_first];
    destruct (strip_prefix sep _) as [r|] eqn:E; try done.
  - intros _ n (x & y & Hxy & _).
    destruct x; simpl in Hxy; [|done].
    eapply strip_prefix_None; [exact E|exact Hxy].
  - destruct (split_first sep s) as [[a' b']|] eqn:Es; [done|].
    intros _ n (x & y & Hxy & Hn).
    destruct x as [|c' x]; simpl in Hxy.
    + eapply strip_prefix_None; [exact E|exact Hxy].
    + injection Hxy as -> Hxy.
      eapply (IH eq_refl (String.length x)). by exists x, y.
Qed.

Lemma first_cut_split_first sep s a b :
  first_cut sep s a b → split_first sep s = Some (a, b).
Proof.
  intros [Hs Hmin].
  destruct (split_first sep s) as [[a' b']|] eqn:E.
  - apply split_first_Some in E as [Hs' Hmin'].
    assert (String.length a = String.length a') as Hlen.
    { apply Nat.le_antisymm.
      - apply Hmin. by exists a', b'.
      - apply Hmin'. by exists a, b. }
    clear Hmin Hmin'. subst s.
    revert a' Hlen Hs'; induction a as [|c a IH]; intros [|c' a'] Hlen Hs';
      simpl in *; try lia.
    + apply (inj (String.app sep)) in Hs' as ->. done.
    + injection Hs' as -> Hs'. injection Hlen as Hlen.
      by injection (IH _ Hlen Hs') as -> ->.
  - exfalso. eapply split_first_None; [exact E|]. by exists a, b.
Qed.

Lemma split_head sep s :
  split sep s !! 0%nat =
    Some (match split_first sep s with Some (a, _) => a | None => s end).
Proof.
  unfold split. destruct s as [|c s]; simpl.
  - by destruct (strip_prefix sep EmptyString).
  - destruct (strip_prefix sep (String c s)); [done|].
    by destruct (split_first sep s) as [[??]|].
Qed.

End PyStrFacts.

(** ** The year token of a raster path *)

Module YearFacts.
Import PyStr PyStrFacts Py Script Spec.

Lemma split_first_lspop rest :
  split_first "lspop" ("data/lspop" +:+ rest) = Some ("data/", rest).
Proof.
  change ("data/lspop" +:+ rest) with ("data/" +:+ "lspop" +:+ rest).
  apply first_cut_split_first. split; [reflexivity|].
  intros n (a & b & Hab & <-).
  destruct (decide (5 ≤ String.length a)%nat) as [|Hlt]; [done|].
  exfalso. do 5 (destruct a as [|? a]; [by inversion Hab|]).
  simpl in Hlt. lia.
Qed.

Lemma strip_prefix_other c p s :
  c ≠ "/"%char → strip_prefix (String "/" p) (String c s) = None.
Proof.
  intros Hc. cbn [strip_prefix].
  destruct (Ascii.eqb "/" c) eqn:E; [|done].
  apply Ascii.eqb_eq in E. congruence.
Qed.

Lemma split_first_hdr y b :
  lacks "/" y →
  split_first "/hdr.adf" (y +:+ "/hdr.adf" +:+ b) = Some (y, b).
Proof.
  induction y as [|c y IH]; intros Hy.
  - change ("" +:+ "/hdr.adf" +:+ b) with ("/hdr.adf" +:+ b).
    destruct b; cbn; by rewrite ?strip_prefix_app.
  - destruct Hy as [Hc Hy].
    change (String c y +:+ "/hdr.adf" +:+ b)
      with (String c (y +:+ "/hdr.adf" +:+ b)).
    cbn [split_first]. rewrite strip_prefix_other by done.
    by rewrite IH.
Qed.

Section Year.
Context {Err : Type}.

Lemma year_of_unfold path :
  year_of (Err:=Err) path =
    match split_first "lspop" path with
    | Some (_, rest) =>
        Return (match split_first "/hdr.adf" rest with
                | Some (y, _) => y
                | None => rest
                end)
    | None => Raise IndexError
    end.
Proof.
  unfold year_of, split1, index.
  destruct (split_first "lspop" path) as [[a rest]|]; simpl; [|done].
  by rewrite split_head.
Qed.

Lemma year_of_cuts path a rest y b :
  first_cut "lspop" path a rest →
  first_cut "/hdr.adf" rest y b →
  year_of (Err:=Err) path = Return y.
Proof.
  intros H1%first_cut_split_first H2%first_cut_split_first.
  by rewrite year_of_unfold, H1, H2.
Qed.

Lemma year_of_lspop_path y :
  lacks "/" y → year_of (Err:=Err) (lspop_path y) = Return y.
Proof.
  intros Hy. unfold lspop_path.
  rewrite year_of_unfold, split_first_lspop.
  change (y +:+ "/hdr.adf") with (y +:+ "/hdr.adf" +:+ "").
  by rewrite split_first_hdr.
Qed.

(** C4.  The year token is the text between the leftmost ["lspop"] of the
    path and the next ["/hdr.adf"] after it; for every path the pattern
    [data/lspop*/hdr.adf] matches, that is the text the star stands for;
    and for [data/lspop2005/hdr.adf] it is [2005]. *)
Theorem year_of_between :
  (∀ path a rest y b,
     first_cut "lspop" path a rest →
     first_cut "/hdr.adf" rest y b →
     year_of (Err:=Err) path = Return y) ∧
  (∀ y, lacks "/" y → year_of (Err:=Err) (lspop_path y) = Return y) ∧
  year_of (Err:=Err) "data/lspop2005/hdr.adf" = Return "2005".
Proof.
  split; [exact year_of_cuts|]. split; [exact year_of_lspop_path|].
  reflexivity.
Qed.

End Year.

(** The first part of [year_of_between] at the path
    [data/lspop2005/hdr.adf], cut after [data/] and before [/hdr.adf]. *)
Lemma year_of_between_witness :
  first_cut "lspop" "data/lspop2005/hdr.adf" "data/" "2005/hdr.adf" ∧
  first_cut "/hdr.adf" "2005/hdr.adf" "2005" "" ∧
  year_of (Err:=unit) "data/lspop2005/hdr.adf" = Return "2005".
Proof.
  assert (first_cut "lspop" "data/lspop2005/hdr.adf" "data/" "2005/hdr.adf")
    as H1 by (by apply split_first_Some).
  assert (first_cut "/hdr.adf" "2005/hdr.adf" "2005" "")
    as H2 by (by apply split_first_Some).
  split; [exact H1|]. split; [exact H2|].
  exact (proj1 year_of_between _ _ _ _ _ H1 H2).
Defined.

End YearFacts.

(** ** Facts about [np.where] and about zonal sums *)

Module NumPyFacts.
Import NumPy Zonal.

Lemma tabulate_length {A} n (f : nat → A) : length (tabulate n f) = n.
Proof. unfold tabulate. by rewrite length_fmap, length_seq. Qed.

Lemma tabulate_lookup {A} n (f : nat → A) i :
  (i < n)%nat → tabulate n f !! i = Some (f i).
Proof.
  intros Hi. unfold tabulate.
  by rewrite list_lookup_fmap, lookup_seq_lt.
Qed.

Lemma tabulate_nth {A} n (f : nat → A) i d :
  (i < n)%nat → nth i (tabulate n f) d = f i.
Proof. intros Hi. by rewrite nth_lookup, tabulate_lookup. Qed.

Lemma tabulate_hd {A} n (f : nat → A) d :
  (0 < n)%nat → hd d (tabulate n f) = f 0%nat.
Proof. destruct n; [lia|done]. Qed.

Lemma hd_nth {A} (l : list A) d : hd d l = nth 0 l d.
Proof. by destruct l. Qed.

Lemma bdim_same n : bdim n n = Some n.
Proof. unfold bdim. by rewrite decide_True. Qed.

Lemma bshape_same s : bshape s s = Some s.
Proof. destruct s as [[b h] w]. unfold bshape. by rewrite !bdim_same. Qed.

Lemma bidx_lt dim i : (i < dim)%nat → bidx dim i = i.
Proof. unfold bidx. case_decide; lia. Qed.

Lemma bidx_0 dim : bidx dim 0 = 0%nat.
Proof. unfold bidx. by case_decide. Qed.

(** The shape read off the first band and first row is the shape of
    every band and row of a rectangular array. *)
Lemma rect_lengths {A} (a : ndarray A) i j :
  rect a → (i < (shape a).1.1)%nat → (j < (shape a).1.2)%nat →
  length (nth i a []) = (shape a).1.2 ∧
  length (nth j (nth i a []) []) = (shape a).2.
Proof.
  intros Hr Hi Hj. simpl in Hi.
  destruct (lookup_lt_is_Some_2 a i Hi) as [b Hb].
  destruct (Hr b) as [Hlb Hrows]; [by eapply list_elem_of_lookup_2|].
  rewrite (nth_lookup_Some _ _ _ _ Hb). split; [done|].
  rewrite <- Hlb in Hj.
  destruct (lookup_lt_is_Some_2 b j Hj) as [r Hrw].
  rewrite (nth_lookup_Some _ _ _ _ Hrw).
  apply Hrows. by eapply list_elem_of_lookup_2.
Qed.

Lemma shape_eq_scalar a v : shape (eq_scalar a v) = shape a.
Proof.
  unfold shape, eq_scalar. rewrite length_fmap.
  destruct a as [|b a]; [done|]. simpl. rewrite length_fmap.
  destruct b as [|r b]; [done|]. simpl. by rewrite length_fmap.
Qed.

Lemma nth_fmap_lt {A B} (f : A → B) (l : list A) i d d' :
  (i < length l)%nat → nth i (f <$> l) d' = f (nth i l d).
Proof.
  intros Hi. destruct (lookup_lt_is_Some_2 l i Hi) as [x Hx].
  rewrite (nth_lookup_Some _ _ _ _ Hx).
  apply nth_lookup_Some. by rewrite list_lookup_fmap, Hx.
Qed.

Lemma item_eq_scalar a v i j k :
  rect a →
  (i < (shape a).1.1)%nat → (j < (shape a).1.2)%nat → (k < (shape a).2)%nat →
  item false (eq_scalar a v) i j k = bool_decide (item 0 a i j k = v).
Proof.
  intros Hr Hi Hj Hk.
  destruct (rect_lengths a i j Hr Hi Hj) as [Hlb Hlr].
  unfold item, eq_scalar.
  rewrite (nth_fmap_lt _ a i []) by done.
  rewrite (nth_fmap_lt _ (nth i a []) j []) by lia.
  by rewrite (nth_fmap_lt _ (nth j (nth i a []) []) k 0) by lia.
Qed.

(** The lengths a nested list can have: no rows without a band, no
    columns without a row. *)
Lemma shape_normal {A} (a : ndarray A) :
  ((shape a).1.1 = 0 → (shape a).1.2 = 0)%nat ∧
  ((shape a).1.2 = 0 → (shape a).2 = 0)%nat.
Proof.
  unfold shape; simpl. split.
  - by intros ->%nil_length_inv.
  - by intros ->%nil_length_inv.
Qed.

Lemma shape_tabulate {A} b h w (f : nat → nat → nat → A) :
  (b = 0 → h = 0)%nat → (h = 0 → w = 0)%nat →
  shape (tabulate b (λ i, tabulate h (λ j, tabulate w (f i j)))) = (b, h, w).
Proof.
  intros Hb Hh. unfold shape. rewrite tabulate_length.
  destruct b as [|b]; [by rewrite Hb, Hh by auto|].
  rewrite tabulate_hd by lia. rewrite tabulate_length.
  destruct h as [|h]; [by rewrite Hh by auto|].
  rewrite tabulate_hd by lia. by rewrite tabulate_length.
Qed.

Lemma item_tabulate {A} b h w (f : nat → nat → nat → A) d i j k :
  (i < b)%nat → (j < h)%nat → (k < w)%nat →
  item d (tabulate b (λ i, tabulate h (λ j, tabulate w (f i j)))) i j k
  = f i j k.
Proof.
  intros Hi Hj Hk. unfold item.
  by rewrite (tabulate_nth b), (tabulate_nth h), (tabulate_nth w).
Qed.

(** [np.where] on a condition and an array of one shape: the result has
    that shape and selects pixel by pixel. *)
Lemma where_same_shape cond x y :
  shape cond = shape x →
  ∃ res, where_ cond x y = Some res ∧ shape res = shape x ∧
    ∀ i j k,
      (i < (shape x).1.1)%nat → (j < (shape x).1.2)%nat →
      (k < (shape x).2)%nat →
      item 0 res i j k =
        if item false cond i j k then item 0 x i j k else y.
Proof.
  intros Hs. unfold where_. rewrite Hs, bshape_same.
  destruct (shape x) as [[b h] w] eqn:Hx. simpl.
  eexists. split; [done|].
  pose proof (shape_normal x) as [Hb Hh]. rewrite Hx in Hb, Hh. simpl in *.
  split; [by apply shape_tabulate|].
  intros i j k Hi Hj Hk.
  rewrite (item_tabulate b h w
    (λ i j k, if item false cond (bidx b i) (bidx h j) (bidx w k)
              then item 0 x (bidx b i) (bidx h j) (bidx w k) else y))
    by done.
  by rewrite !bidx_lt.
Qed.

(** Band 0 of [np.where(cond, x, y)] is built from band 0 of [x] and
    from the number of bands of [x], and from nothing else of [x]. *)
Lemma where_band0 cond x x' y :
  length x = length x' → nth 0 x [] = nth 0 x' [] →
  (where_ cond x y ≫= (.!! 0%nat)) = (where_ cond x' y ≫= (.!! 0%nat)).
Proof.
  intros Hl H0. unfold where_.
  assert (shape x = shape x') as Hs.
  { unfold shape. by rewrite Hl, !hd_nth, H0. }
  rewrite <- Hs. destruct (bshape (shape cond) (shape x)) as [[[b h] w]|];
    [|done].
  simpl. destruct b as [|b]; [done|].
  rewrite !tabulate_lookup by lia. f_equal.
  unfold item. by rewrite !bidx_0, H0.
Qed.

Lemma shape_band0 (x x' : ndarray Z) :
  length x = length x' → nth 0 x [] = nth 0 x' [] → shape x = shape x'.
Proof. intros Hl H0. unfold shape. by rewrite Hl, !hd_nth, H0. Qed.

(** Whether [np.where] raises depends on the shapes alone. *)
Lemma where_None_shape cond x x' y :
  shape x = shape x' → where_ cond x y = None → where_ cond x' y = None.
Proof.
  unfold where_. intros <-.
  by destruct (bshape (shape cond) (shape x)) as [[[b h] w]|].
Qed.

Lemma bdim_same_Some n b : bdim n n = Some b → b = n.
Proof. rewrite bdim_same. congruence. Qed.

(** Band 0 of [np.where(cond, x, y)] when [cond] and [x] have the same
    rows and columns, whatever their numbers of bands: it selects pixel
    by pixel between band 0 of [x] and [y], by band 0 of [cond]. *)
Lemma where_band0_pixels cond x y res g :
  where_ cond x y = Some res → res !! 0%nat = Some g →
  (shape cond).1.2 = (shape x).1.2 → (shape cond).2 = (shape x).2 →
  ∀ j k, (j < (shape x).1.2)%nat → (k < (shape x).2)%nat →
    item2 0 g j k =
      if item false cond 0 j k then item 0 x 0 j k else y.
Proof.
  unfold where_, bshape. intros Hw Hg Hh Hwd j k Hj Hk.
  rewrite Hh, Hwd in Hw.
  destruct (bdim (shape cond).1.1 (shape x).1.1) as [b|]; [|done].
  rewrite !bdim_same in Hw. injection Hw as <-.
  destruct b as [|b]; [done|].
  rewrite tabulate_lookup in Hg by lia. injection Hg as <-.
  unfold item2. rewrite (tabulate_nth _ _ j), (tabulate_nth _ _ k) by done.
  by rewrite !bidx_0, !bidx_lt.
Qed.

Lemma zone_sum_cons c cells g :
  zone_sum (c :: cells) g = cell_value g c + zone_sum cells g.
Proof. done. Qed.

(** The zonal sum is additive. *)
Lemma zone_sum_pointwise cells (g1 g2 g : grid Z) (keep : cell → bool) :
  (∀ c, c ∈ cells →
     cell_value g1 c + cell_value g2 c =
       if keep c then cell_value g c else 0) →
  zone_sum cells g1 + zone_sum cells g2 =
  zone_sum (filter (λ c, keep c) cells) g.
Proof.
  induction cells as [|c cells IH]; intros Hc; [done|].
  rewrite filter_cons, !zone_sum_cons.
  pose proof (Hc c ltac:(left)) as Hhd.
  assert (zone_sum cells g1 + zone_sum cells g2 =
          zone_sum (filter (λ c, keep c) cells) g) as Htl.
  { apply IH. intros c' Hc'. apply Hc. by right. }
  case_decide as Hk; simpl in Hk.
  - apply Is_true_true in Hk. rewrite Hk in Hhd. rewrite zone_sum_cons. lia.
  - apply Is_true_false in Hk. rewrite Hk in Hhd. lia.
Qed.

(** The zonal sum of a grid that is another grid on some pixels and 0 on
    the others is the zonal sum of the other grid over those pixels. *)
Lemma zone_sum_filter cells (g1 g : grid Z) (keep : cell → bool) :
  (∀ c, c ∈ cells →
     cell_value g1 c = if keep c then cell_value g c else 0) →
  zone_sum cells g1 = zone_sum (filter (λ c, keep c) cells) g.
Proof.
  induction cells as [|c cells IH]; intros Hc; [done|].
  rewrite filter_cons, !zone_sum_cons.
  pose proof (Hc c ltac:(left)) as Hhd.
  assert (zone_sum cells g1 = zone_sum (filter (λ c, keep c) cells) g)
    as Htl.
  { apply IH. intros c' Hc'. apply Hc. by right. }
  case_decide as Hk; simpl in Hk.
  - apply Is_true_true in Hk. rewrite Hk in Hhd. rewrite zone_sum_cons. lia.
  - apply Is_true_false in Hk. rewrite Hk in Hhd. lia.
Qed.

End NumPyFacts.

(** ** The rural and the urban grid *)

Module SelectFacts.
Import NumPy Zonal NumPyFacts.

Lemma item_band0 (a : ndarray Z) g j k :
  a !! 0%nat = Some g → item 0 a 0 j k = item2 0 g j k.
Proof. intros H. unfold item, item2. by rewrite (nth_lookup_Some _ _ _ _ H). Qed.

(** Both selections on arrays of one shape, pixel by pixel. *)
Lemma where_pair (r_img p_img : ndarray Z) :
  rect r_img → shape r_img = shape p_img →
  ∃ rural_pop urban_pop,
    where_ (eq_scalar r_img 1) p_img 0 = Some rural_pop ∧
    where_ (eq_scalar r_img 0) p_img 0 = Some urban_pop ∧
    shape rural_pop = shape p_img ∧ shape urban_pop = shape p_img ∧
    ∀ i j k,
      (i < (shape p_img).1.1)%nat → (j < (shape p_img).1.2)%nat →
      (k < (shape p_img).2)%nat →
      item 0 rural_pop i j k =
        (if decide (item 0 r_img i j k = 1) then item 0 p_img i j k else 0) ∧
      item 0 urban_pop i j k =
        (if decide (item 0 r_img i j k = 0) then item 0 p_img i j k else 0).
Proof.
  intros Hr Hs.
  destruct (where_same_shape (eq_scalar r_img 1) p_img 0)
    as (rural & Hw1 & Hs1 & Hi1); [by rewrite shape_eq_scalar|].
  destruct (where_same_shape (eq_scalar r_img 0) p_img 0)
    as (urban & Hw0 & Hs0 & Hi0); [by rewrite shape_eq_scalar|].
  exists rural, urban. do 4 (split; [done|]).
  intros i j k Hi Hj Hk.
  rewrite Hi1, Hi0 by done.
  rewrite !item_eq_scalar by (by rewrite ?Hs).
  split; by rewrite <- decide_bool_decide.
Qed.

Lemma example_rect : rect Example.r_img.
Proof.
  intros b Hb. apply list_elem_of_singleton in Hb as ->.
  split; [done|]. intros r Hrow.
  repeat (apply elem_of_cons in Hrow as [->|Hrow]; [done|]).
  by apply elem_of_nil in Hrow.
Qed.

(** Both selections on arrays of one shape, with what they hold where
    the mask is neither 0 nor 1, and what such a pixel adds to the sum
    over a zone. *)
Lemma where_selects (r_img p_img : ndarray Z) :
  rect r_img → shape r_img = shape p_img →
  ∃ rural_pop urban_pop,
    where_ (eq_scalar r_img 1) p_img 0 = Some rural_pop ∧
    where_ (eq_scalar r_img 0) p_img 0 = Some urban_pop ∧
    shape rural_pop = shape p_img ∧ shape urban_pop = shape p_img ∧
    (∀ i j k,
      (i < (shape p_img).1.1)%nat → (j < (shape p_img).1.2)%nat →
      (k < (shape p_img).2)%nat →
      item 0 rural_pop i j k =
        (if decide (item 0 r_img i j k = 1) then item 0 p_img i j k else 0) ∧
      item 0 urban_pop i j k =
        (if decide (item 0 r_img i j k = 0) then item 0 p_img i j k else 0) ∧
      (item 0 r_img i j k ≠ 0 → item 0 r_img i j k ≠ 1 →
       item 0 rural_pop i j k = 0 ∧ item 0 urban_pop i j k = 0)) ∧
    (∀ rural0 urban0 c cells,
      rural_pop !! 0%nat = Some rural0 → urban_pop !! 0%nat = Some urban0 →
      in_grid (shape p_img).1.2 (shape p_img).2 c →
      item 0 r_img 0 c.1 c.2 ≠ 0 → item 0 r_img 0 c.1 c.2 ≠ 1 →
      zone_sum (c :: cells) rural0 = zone_sum cells rural0 ∧
      zone_sum (c :: cells) urban0 = zone_sum cells urban0).
Proof.
  intros Hr Hs.
  destruct (where_pair r_img p_img Hr Hs)
    as (rural & urban & Hw1 & Hw0 & Hs1 & Hs0 & Hpix).
  exists rural, urban. do 4 (split; [done|]). split.
  - intros i j k Hi Hj Hk. destruct (Hpix i j k Hi Hj Hk) as [H1 H0].
    do 2 (split; [done|]). intros Hn0 Hn1.
    by rewrite H1, H0, !decide_False.
  - intros rural0 urban0 [j k] cells Hr0 Hu0 [Hj Hk] Hn0 Hn1.
    simpl in Hj, Hk, Hn0, Hn1.
    assert (0 < (shape p_img).1.1)%nat as Hb.
    { rewrite <- Hs1. simpl. by eapply lookup_lt_Some. }
    destruct (Hpix 0%nat j k Hb Hj Hk) as [H1 H0].
    rewrite decide_False in H1 by done. rewrite decide_False in H0 by done.
    rewrite !zone_sum_cons. unfold cell_value. simpl.
    rewrite <- (item_band0 rural rural0), <- (item_band0 urban urban0) by done.
    rewrite H1, H0. lia.
Qed.

End SelectFacts.

(** ** How statements of the script act on the world *)

Module EffectFacts.
Import PyStr NumPy Py Script Zonal Spec.

Section Effects.
Context {Geometry Affine Dataset Err : Type}.
Variable env : Env Geometry Affine Dataset Err.

Abbreviation M := (M (Geometry:=Geometry) (Affine:=Affine)
                     (Dataset:=Dataset) (Err:=Err)).

Lemma acts_ret {A} (a : A) : acts (mret a : M A) (Return a) [] [].
Proof. intros [f c]. unfold mret, M_ret. simpl. by rewrite !app_nil_r. Qed.

Lemma acts_pure {A} (o : outcome (exn Err) A) : acts (pure o : M A) o [] [].
Proof. intros [f c]. unfold pure. simpl. by rewrite !app_nil_r. Qed.

Lemma acts_pure_eq {A} (o o' : outcome (exn Err) A) :
  o = o' → acts (pure o : M A) o' [] [].
Proof. intros <-. apply acts_pure. Qed.

Lemma acts_lib_Return {A} (c : call Geometry Affine Dataset)
    (r : outcome Err A) a :
  r = Return a → acts (lib c r) (Return a) [] [c].
Proof. intros -> [f cs]. unfold lib. simpl. by rewrite app_nil_r. Qed.

Lemma acts_lib_Raise {A} (c : call Geometry Affine Dataset)
    (r : outcome Err A) e :
  r = Raise e → acts (lib c r) (Raise (LibError e)) [] [c].
Proof. intros -> [f cs]. unfold lib. simpl. by rewrite app_nil_r. Qed.

Lemma acts_writerow r : acts (writerow r : M ()) (Return ()) [r] [].
Proof. intros [f cs]. unfold writerow. simpl. by rewrite app_nil_r. Qed.

Lemma acts_bind {A B} (m : M A) (f : A → M B) a res rows1 new1 rows2 new2 :
  acts m (Return a) rows1 new1 →
  acts (f a) res rows2 new2 →
  acts (m ≫= f) res (rows1 ++ rows2) (new1 ++ new2).
Proof.
  intros Hm Hf w. unfold mbind, M_bind. rewrite Hm, Hf. simpl.
  by rewrite !(assoc_L (++)).
Qed.

Lemma acts_bind_Raise {A B} (m : M A) (f : A → M B) e rows new :
  acts m (Raise e) rows new → acts (m ≫= f) (Raise e) rows new.
Proof. intros Hm w. unfold mbind, M_bind. by rewrite Hm. Qed.

Lemma acts_as {A} (m : M A) res rows new rows' new' :
  acts m res rows new → rows' = rows → new' = new → acts m res rows' new'.
Proof. by intros H -> ->. Qed.

(** What a statement does is determined by the statement. *)
Lemma acts_det {A} (m : M A) res1 rows1 new1 res2 rows2 new2 :
  acts m res1 rows1 new1 → acts m res2 rows2 new2 →
  res1 = res2 ∧ rows1 = rows2 ∧ new1 = new2.
Proof.
  intros H1 H2. specialize (H1 (mkWorld [] [])). specialize (H2 (mkWorld [] [])).
  rewrite H1 in H2. simpl in H2. by injection H2 as -> -> ->.
Qed.

Lemma acts_run {A} (m : M A) res rows new w res' w' :
  acts m res rows new → m w = (res', w') →
  res' = res ∧ csv_file w' = csv_file w ++ rows ∧ calls w' = calls w ++ new.
Proof. intros Hm Hw. rewrite Hm in Hw. by injection Hw as <- <-. Qed.

(** *** Loops *)

Lemma loop_run_acts {A} (body : A → M ()) l res blocks news :
  loop_run body l res blocks news →
  acts (for_each l body) res (concat blocks) (concat news).
Proof.
  induction 1 as [|x l res rows new blocks news Hx _ IH|x l e rows new Hx].
  - apply acts_ret.
  - simpl. by eapply acts_bind.
  - simpl. rewrite !app_nil_r. by apply acts_bind_Raise.
Qed.

Lemma loop_run_total {A} (body : A → M ()) l :
  (∀ x, x ∈ l → ∃ res rows new, acts (body x) res rows new) →
  ∃ res blocks news, loop_run body l res blocks news.
Proof.
  induction l as [|x l IH]; intros Hbody.
  - eexists _, _, _. constructor.
  - destruct (Hbody x) as (res & rows & new & Hx); [by left|].
    destruct res as [e|[]].
    + eexists _, _, _. by eapply loop_abort.
    + destruct IH as (res & blocks & news & Hl).
      { intros y Hy. apply Hbody. by right. }
      eexists _, _, _. by eapply loop_step.
Qed.

(** A loop that returns went through every element. *)
Lemma loop_run_Return {A} (body : A → M ()) l blocks news :
  loop_run body l (Return ()) blocks news →
  Forall2 (λ x b, ∃ new, acts (body x) (Return ()) b new) l blocks.
Proof.
  intros H. remember (Return ()) as res eqn:Hres.
  induction H; subst; try done; constructor; eauto.
Qed.

End Effects.

End EffectFacts.

(** ** One round of the loop over the population rasters *)

Module BodyFacts.
Import PyStr NumPy Py Script Zonal Spec YearFacts EffectFacts.

Section Body.
Context {Geometry Affine Dataset Err : Type}.
Variable env : Env Geometry Affine Dataset Err.

Abbreviation M := (M (Geometry:=Geometry) (Affine:=Affine)
                     (Dataset:=Dataset) (Err:=Err)).

(** The dict of a zone has exactly the five field names as keys, so the
    writer accepts it, and lays it out in column order. *)
Lemma dict_to_list_record (i n y r u : pyval) :
  dict_to_list (Err:=Err)
    (<["urban_pop" := u]> (<["rural_pop" := r]> (<["year" := y]>
      (<["name" := n]> (<["id" := i]> (∅ : gmap string pyval))))))
  = Return [i; n; y; r; u].
Proof.
  unfold dict_to_list. rewrite decide_True.
  - unfold fieldnames. simpl. by simplify_map_eq.
  - rewrite !dom_insert_L, dom_empty_L. unfold fieldnames. set_solver.
Qed.

Lemma record_cases (f : Feature Geometry) rs us year :
  (∃ t row, record (Err:=Err) f rs us year = Return t ∧
            dict_to_list (Err:=Err) t = Return row ∧
            zone_row year f rs us row) ∨
  (∃ key, record (Err:=Err) f rs us year = Raise (KeyError key)).
Proof.
  unfold record, getitem.
  destruct (properties f !! "ID_2") as [i|] eqn:Hi; [|right; by eexists].
  destruct (properties f !! "NAME_2") as [n|] eqn:Hn; [|right; by eexists].
  left. eexists _, _. split; [done|]. split; [apply dict_to_list_record|].
  by exists i, n.
Qed.

Lemma record_has_keys (f : Feature Geometry) rs us year :
  has_keys f → ∃ t, record (Err:=Err) f rs us year = Return t.
Proof.
  intros [[i Hi] [n Hn]]. unfold record, getitem. rewrite Hi, Hn.
  by eexists.
Qed.

Lemma records_cases year (zs : list (Feature Geometry * (Stat * Stat))) :
  (∃ ts rows, records (Err:=Err) year zs = Return ts ∧
     Forall2 (λ t r, dict_to_list (Err:=Err) t = Return r) ts rows ∧
     Forall2 (λ z row, zone_row year z.1 z.2.1 z.2.2 row) zs rows) ∨
  (∃ key, records (Err:=Err) year zs = Raise (KeyError key)).
Proof.
  induction zs as [|[f [rs us]] zs IH]; simpl.
  - left. exists [], []. by repeat constructor.
  - destruct (record_cases f rs us year) as [(t & row & -> & Ht & Hrow)|[k ->]];
      [|right; by exists k].
    destruct IH as [(ts & rows & -> & Hts & Hrows)|[k ->]];
      [|right; by exists k].
    left. exists (t :: ts), (row :: rows). split; [done|].
    split; by constructor.
Qed.

Lemma records_has_keys year (zs : list (Feature Geometry * (Stat * Stat))) :
  Forall (λ z, has_keys z.1) zs →
  ∃ ts, records (Err:=Err) year zs = Return ts.
Proof.
  induction 1 as [|[f [rs us]] zs Hf _ [ts IH]]; simpl; [by eexists|].
  destruct (record_has_keys f rs us year Hf) as [t ->].
  rewrite IH. by eexists.
Qed.

Lemma acts_writerows ts rows :
  Forall2 (λ t r, dict_to_list (Err:=Err) t = Return r) ts rows →
  acts (writerows ts : M ()) (Return ()) rows [].
Proof.
  unfold writerows. induction 1 as [|t r ts rows Ht _ IH]; simpl.
  - apply acts_ret.
  - eapply acts_as.
    { eapply acts_bind; [|exact IH].
      rewrite Ht. eapply acts_bind; [apply acts_pure|apply acts_writerow]. }
    all: done.
Qed.


Ltac by_eqs :=
  unfold index;
  repeat match goal with H : _ = _ |- _ => rewrite H end;
  simpl; reflexivity.
Ltac returns :=
  eapply acts_bind;
  [first [eapply acts_lib_Return; first [eassumption|reflexivity]
         |eapply acts_pure_eq; by_eqs]|];
  cbv beta.
Ltac raises :=
  eapply acts_bind_Raise;
  first [eapply acts_lib_Raise; first [eassumption|reflexivity]
        |eapply acts_pure_eq; by_eqs].

(** Every way through lines 72-104. *)
Lemma aggregate_acts features r_img p_img aff path :
  ∃ res rows new,
    acts (aggregate env features r_img p_img aff path) res rows new ∧
    (∀ c, c ∈ new → ∃ g a, c = ZonalStats features g a) ∧
    (∀ e, res = Raise e → rows = []) ∧
    (∀ e0, res = Raise (LibError e0) →
           sums_fail env features r_img p_img aff e0) ∧
    (res = Return () →
     ∃ rural0 urban0 rural_stats urban_stats year,
       sums_ok env features r_img p_img aff rural0 urban0
         rural_stats urban_stats ∧
       year_of (Err:=Err) path = Return year ∧
       year_rows features rural_stats urban_stats year rows ∧
       new = [ZonalStats features rural0 aff;
              ZonalStats features urban0 aff]).
Proof.
  unfold aggregate.
  destruct (where_ (eq_scalar r_img 1) p_img 0) as [rural_pop|] eqn:H1;
    [|eexists _, _, _; split; [raises|]; simpl; split_and!; try done;
      intros c Hc; by apply elem_of_nil in Hc].
  destruct (where_ (eq_scalar r_img 0) p_img 0) as [urban_pop|] eqn:H0;
    [|eexists _, _, _; split; [returns; raises|]; simpl; split_and!; try done;
      intros c Hc; by apply elem_of_nil in Hc].
  destruct (rural_pop !! 0%nat) as [rural0|] eqn:Hr0;
    [|eexists _, _, _; split; [do 2 returns; raises|]; simpl; split_and!;
      try done; intros c Hc; by apply elem_of_nil in Hc].
  destruct (zonal_stats env features rural0 aff) as [e|rural_stats] eqn:Hzr.
  { eexists _, _, _; split; [do 3 returns; raises|]. simpl. split_and!; try done.
    - intros c ->%list_elem_of_singleton. by eexists _, _.
    - intros e0 [= <-]. by eapply fails_rural. }
  destruct (urban_pop !! 0%nat) as [urban0|] eqn:Hu0;
    [|eexists _, _, _; split; [do 4 returns; raises|]; simpl; split_and!;
      try done; intros c ->%list_elem_of_singleton; by eexists _, _].
  assert (∀ c : call Geometry Affine Dataset,
            c ∈ [ZonalStats features rural0 aff;
                 ZonalStats features urban0 aff] →
            ∃ g a, c = ZonalStats features g a) as Hcalls.
  { intros c [->|[->|[]%elem_of_nil]%elem_of_cons]%elem_of_cons;
      by eexists _, _. }
  destruct (zonal_stats env features urban0 aff) as [e|urban_stats] eqn:Hzu.
  { eexists _, _, _; split; [do 5 returns; raises|]. simpl. split_and!; try done.
    intros e0 [= <-]. by eapply fails_urban. }
  destruct (year_of (Err:=Err) path) as [e|year] eqn:Hy.
  { assert (e = IndexError) as ->.
    { rewrite year_of_unfold in Hy.
      destruct (split_first "lspop" path) as [[??]|]; congruence. }
    eexists _, _, _; split; [do 6 returns; raises|]. simpl.
    split_and!; try done. }
  destruct (records_cases year
              (zip features (zip rural_stats urban_stats)))
    as [(ts & rows & Hts & Hdict & Hrows)|[key Hkey]].
  - eexists _, _, _; split.
    { do 8 returns. by apply acts_writerows. }
    simpl. split_and!; try done.
    intros _. exists rural0, urban0, rural_stats, urban_stats, year.
    split; [|done]. split; [|done]. by exists rural_pop, urban_pop.
  - eexists _, _, _; split.
    { do 7 returns. raises. }
    simpl. split_and!; done.
Qed.


(** A failing zonal sum ends the round with the library's error. *)
Lemma aggregate_fails features r_img p_img aff path e :
  sums_fail env features r_img p_img aff e →
  ∃ new, acts (aggregate env features r_img p_img aff path)
           (Raise (LibError e)) [] new.
Proof.
  unfold aggregate.
  intros [rural_pop urban_pop rural0 H1 H0 Hr0 Hzr
         |rural_pop urban_pop rural0 rural_stats urban0 H1 H0 Hr0 Hzr Hu0 Hzu].
  - eexists. eapply acts_as; [do 3 returns; raises|done..].
  - eexists. eapply acts_as; [do 5 returns; raises|done..].
Qed.

(** When every operation succeeds and every zone that is paired with
    statistics has its two properties, the round returns and writes the
    rows of the year. *)
Lemma aggregate_returns features r_img p_img aff path
    rural0 urban0 rural_stats urban_stats year :
  sums_ok env features r_img p_img aff rural0 urban0 rural_stats urban_stats →
  year_of (Err:=Err) path = Return year →
  Forall (λ z, has_keys z.1) (zip features (zip rural_stats urban_stats)) →
  ∃ rows,
    acts (aggregate env features r_img p_img aff path) (Return ()) rows
      [ZonalStats features rural0 aff; ZonalStats features urban0 aff] ∧
    year_rows features rural_stats urban_stats year rows.
Proof.
  intros ((rural_pop & urban_pop & H1 & H0 & Hr0 & Hu0) & Hzr & Hzu) Hy Hkeys.
  destruct (records_has_keys year _ Hkeys) as [ts Hts].
  destruct (records_cases year (zip features (zip rural_stats urban_stats)))
    as [(ts' & rows & Hts' & Hdict & Hrows)|[key Hkey]]; [|congruence].
  exists rows. split; [|done]. unfold aggregate.
  eapply acts_as; [do 8 returns; by apply acts_writerows|done..].
Qed.

(** The same, with the calls of the failing round. *)
Lemma aggregate_fails_rural features r_img p_img aff path
    rural_pop urban_pop rural0 e :
  where_ (eq_scalar r_img 1) p_img 0 = Some rural_pop →
  where_ (eq_scalar r_img 0) p_img 0 = Some urban_pop →
  rural_pop !! 0%nat = Some rural0 →
  zonal_stats env features rural0 aff = Raise e →
  acts (aggregate env features r_img p_img aff path) (Raise (LibError e)) []
    [ZonalStats features rural0 aff].
Proof.
  intros H1 H0 Hr0 Hzr. unfold aggregate.
  eapply acts_as; [do 3 returns; raises|done..].
Qed.

Lemma aggregate_fails_urban features r_img p_img aff path
    rural_pop urban_pop rural0 urban0 rural_stats e :
  where_ (eq_scalar r_img 1) p_img 0 = Some rural_pop →
  where_ (eq_scalar r_img 0) p_img 0 = Some urban_pop →
  rural_pop !! 0%nat = Some rural0 →
  urban_pop !! 0%nat = Some urban0 →
  zonal_stats env features rural0 aff = Return rural_stats →
  zonal_stats env features urban0 aff = Raise e →
  acts (aggregate env features r_img p_img aff path) (Raise (LibError e)) []
    [ZonalStats features rural0 aff; ZonalStats features urban0 aff].
Proof.
  intros H1 H0 Hr0 Hu0 Hzr Hzu. unfold aggregate.
  eapply acts_as; [do 5 returns; raises|done..].
Qed.

(** What is known of lines 72-104 once they have returned. *)
Lemma aggregate_returned features r_img p_img aff path w w' :
  aggregate env features r_img p_img aff path w = (Return (), w') →
  ∃ rural0 urban0 rural_stats urban_stats year rows,
    sums_ok env features r_img p_img aff rural0 urban0
      rural_stats urban_stats ∧
    year_of (Err:=Err) path = Return year ∧
    year_rows features rural_stats urban_stats year rows ∧
    w' = mkWorld (csv_file w ++ rows)
           (calls w ++ [ZonalStats features rural0 aff;
                        ZonalStats features urban0 aff]).
Proof.
  intros Hrun.
  destruct (aggregate_acts features r_img p_img aff path)
    as (res & rows & new & Hacts & _ & _ & _ & Hret).
  rewrite Hacts in Hrun. injection Hrun as -> <-.
  destruct (Hret eq_refl) as (rural0 & urban0 & rs & us & year
                              & Hok & Hy & Hrows & ->).
  by exists rural0, urban0, rs, us, year, rows.
Qed.

(** Every way through lines 66-104. *)
Lemma process_acts clip_box features r_img path :
  ∃ res rows new,
    acts (process env clip_box features r_img path) res rows new ∧
    year_calls clip_box features path new ∧
    (∀ e, res = Raise e → rows = []) ∧
    (∀ e0, res = Raise (LibError e0) →
           fails_with env clip_box features r_img path e0) ∧
    (res = Return () →
     ∃ pop p_img aff rural0 urban0 rural_stats urban_stats year,
       year_reads env clip_box features r_img path pop p_img aff
         rural0 urban0 rural_stats urban_stats ∧
       year_of (Err:=Err) path = Return year ∧
       year_rows features rural_stats urban_stats year rows ∧
       new = [RasterioOpen path; Mask pop clip_box;
              ZonalStats features rural0 aff;
              ZonalStats features urban0 aff]).
Proof.
  unfold process.
  destruct (rasterio_open env path) as [e|pop] eqn:Hopen.
  { eexists _, _, _. split; [raises|]. simpl. split_and!; try done.
    - exists []. split; [done|]. by intros c ?%elem_of_nil.
    - intros e0 [= <-]. by apply fails_open. }
  destruct (mask env pop clip_box) as [e|[p_img aff]] eqn:Hmask.
  { eexists _, _, _. split; [returns; raises|]. simpl. split_and!; try done.
    - eexists. split; [done|].
      intros c ->%list_elem_of_singleton. left. by eexists.
    - intros e0 [= <-]. by eapply fails_mask. }
  destruct (aggregate_acts features r_img p_img aff path)
    as (res & rows & new & Hacts & Hcalls & Hraise & Hlib & Hret).
  eexists _, _, _. split; [do 2 returns; exact Hacts|]. simpl.
  split_and!; try done.
  - eexists. split; [done|].
    intros c [->|Hc]%elem_of_cons; [left; by eexists|].
    right. by apply Hcalls.
  - intros e0 He0. eapply fails_sums; eauto.
  - intros Hres.
    destruct (Hret Hres)
      as (rural0 & urban0 & rs & us & year & Hok & Hy & Hr & ->).
    by exists pop, p_img, aff, rural0, urban0, rs, us, year.
Qed.

(** "Any failure aborts": a failing library operation ends the round
    with the library's own error and without a row. *)
Lemma process_fails clip_box features r_img path e :
  fails_with env clip_box features r_img path e →
  ∃ new, acts (process env clip_box features r_img path)
           (Raise (LibError e)) [] new ∧
         year_calls clip_box features path new.
Proof.
  intros Hf.
  destruct (process_acts clip_box features r_img path)
    as (res & rows & new & Hacts & Hcalls & _).
  exists new. split; [|done].
  assert (∃ new', acts (process env clip_box features r_img path)
                    (Raise (LibError e)) [] new') as [new' Hacts'].
  { unfold process.
    destruct Hf as [Hopen|pop Hopen Hmask|pop p_img aff Hopen Hmask Hsums].
    - eexists. raises.
    - eexists. eapply acts_as; [returns; raises|done..].
    - destruct (aggregate_fails _ _ _ _ path _ Hsums) as [new' Hagg].
      eexists. eapply acts_as; [do 2 returns; exact Hagg|done..]. }
  by destruct (acts_det _ _ _ _ _ _ _ Hacts Hacts') as (-> & -> & ->).
Qed.

Lemma process_returns clip_box features r_img path
    pop p_img aff rural0 urban0 rural_stats urban_stats year :
  year_reads env clip_box features r_img path pop p_img aff
    rural0 urban0 rural_stats urban_stats →
  year_of (Err:=Err) path = Return year →
  Forall (λ z, has_keys z.1) (zip features (zip rural_stats urban_stats)) →
  ∃ rows,
    acts (process env clip_box features r_img path) (Return ()) rows
      [RasterioOpen path; Mask pop clip_box;
       ZonalStats features rural0 aff; ZonalStats features urban0 aff] ∧
    year_rows features rural_stats urban_stats year rows.
Proof.
  intros (Hopen & Hmask & Hok) Hy Hkeys.
  destruct (aggregate_returns _ _ _ _ _ _ _ _ _ _ Hok Hy Hkeys)
    as (rows & Hagg & Hrows).
  exists rows. split; [|done]. unfold process.
  eapply acts_as; [do 2 returns; exact Hagg|done..].
Qed.

End Body.

End BodyFacts.

(** ** The whole run *)

Module MainFacts.
Import PyStr NumPy Py Script Zonal Spec YearFacts EffectFacts BodyFacts.

Section Main.
Context {Geometry Affine Dataset Err : Type}.
Variable env : Env Geometry Affine Dataset Err.

Abbreviation M := (M (Geometry:=Geometry) (Affine:=Affine)
                     (Dataset:=Dataset) (Err:=Err)).
Abbreviation pattern := "data/lspop*/hdr.adf"%string.

Lemma get_pop_rasters_acts :
  acts (get_pop_rasters env) (Return (sorted (glob env pattern))) []
    [Glob pattern].
Proof.
  unfold get_pop_rasters.
  eapply acts_as.
  { eapply acts_bind; [by apply acts_lib_Return|apply acts_ret]. }
  all: done.
Qed.

(** What is known of a round from the way it acted. *)
Lemma process_post clip_box features r_img path res rows new :
  acts (process env clip_box features r_img path) res rows new →
  year_calls clip_box features path new ∧
  (∀ e, res = Raise e → rows = []) ∧
  (∀ e0, res = Raise (LibError e0) →
         fails_with env clip_box features r_img path e0) ∧
  (res = Return () →
   ∃ pop p_img aff rural0 urban0 rural_stats urban_stats year,
     year_reads env clip_box features r_img path pop p_img aff
       rural0 urban0 rural_stats urban_stats ∧
     year_of (Err:=Err) path = Return year ∧
     year_rows features rural_stats urban_stats year rows ∧
     new = [RasterioOpen path; Mask pop clip_box;
            ZonalStats features rural0 aff;
            ZonalStats features urban0 aff]).
Proof.
  intros Hacts.
  destruct (process_acts env clip_box features r_img path)
    as (res' & rows' & new' & Hacts' & Hpost).
  by destruct (acts_det _ _ _ _ _ _ _ Hacts Hacts') as (-> & -> & ->).
Qed.

(** The loop over any list of rasters runs in exactly one way. *)
Lemma process_loop clip_box features r_img paths :
  ∃ res blocks news,
    loop_run (process env clip_box features r_img) paths res blocks news.
Proof.
  apply loop_run_total. intros path _.
  destruct (process_acts env clip_box features r_img path)
    as (res & rows & new & Hacts & _).
  by exists res, rows, new.
Qed.

(** The run, once the output file is open. *)
Lemma main_after_preamble boundingbox features rural r_img r_transform
    res rows new :
  preamble_ok env boundingbox features rural r_img r_transform →
  acts (for_each (sorted (glob env pattern))
          (process env (geometry <$> boundingbox) features r_img))
    res rows new →
  ∀ w, main env w =
       (res, mkWorld (header :: rows)
               (calls w ++ preamble_calls boundingbox rural ++ new)).
Proof.
  intros (Hbb & Hz & Hopen & Hmask & Hw) Hloop w.
  unfold main, mbind, M_bind, lib, open_write, writeheader, writerow.
  rewrite Hbb. cbn -[get_pop_rasters for_each].
  rewrite Hz. cbn -[get_pop_rasters for_each].
  rewrite Hopen. cbn -[get_pop_rasters for_each].
  rewrite Hmask. cbn -[get_pop_rasters for_each].
  rewrite Hw. cbn -[get_pop_rasters for_each].
  rewrite get_pop_rasters_acts. cbn -[get_pop_rasters for_each].
  rewrite Hloop. unfold preamble_calls, header. cbn.
  by rewrite <- !(assoc_L (++)).
Qed.

Ltac no_mask :=
  let Hin := fresh in
  intros ??? Hin;
  repeat (apply elem_of_cons in Hin as [[=]|Hin]);
  by apply elem_of_nil in Hin.

(** A run whose reads or whose open fail before the loop: it raises the
    library's error and leaves the output file as it was.  The land-use
    raster, if the run got to clipping it, was clipped with the
    geometries of all features of the bounding-box file. *)
Lemma main_cases :
  (∃ boundingbox features rural r_img r_transform,
     preamble_ok env boundingbox features rural r_img r_transform) ∨
  (∃ e new,
     (∀ w, main env w =
        (Raise (LibError e), mkWorld (csv_file w) (calls w ++ new))) ∧
     (∀ ds shapes bb,
        Mask ds shapes ∈ new →
        fiona_open env "data/ca_boundingbox.shp" = Return bb →
        shapes = geometry <$> bb) ∧
     (∀ bb features rural,
        fiona_open env "data/ca_boundingbox.shp" = Return bb →
        fiona_open env zones = Return features →
        rasterio_open env rural_region = Return rural →
        Mask rural (geometry <$> bb) ∈ new)).
Proof.
  destruct (fiona_open env "data/ca_boundingbox.shp") as [e|bb] eqn:Hbb.
  { right. exists e, [FionaOpen "data/ca_boundingbox.shp"].
    split_and!; [|no_mask|congruence]. intros w.
    unfold main, mbind, M_bind, lib. by rewrite Hbb. }
  destruct (fiona_open env zones) as [e|features] eqn:Hz.
  { right. exists e, [FionaOpen "data/ca_boundingbox.shp"; FionaOpen zones].
    split_and!; [|no_mask|congruence]. intros w.
    unfold main, mbind, M_bind, lib. rewrite Hbb. simpl. rewrite Hz. simpl.
    by rewrite <- !(assoc_L (++)). }
  destruct (rasterio_open env rural_region) as [e|rural] eqn:Hopen.
  { right. exists e, [FionaOpen "data/ca_boundingbox.shp"; FionaOpen zones;
                      RasterioOpen rural_region].
    split_and!; [|no_mask|congruence]. intros w.
    unfold main, mbind, M_bind, lib. rewrite Hbb. simpl. rewrite Hz. simpl.
    rewrite Hopen. simpl. by rewrite <- !(assoc_L (++)). }
  destruct (mask env rural (geometry <$> bb)) as [e|[r_img r_transform]]
    eqn:Hmask.
  { right. exists e, [FionaOpen "data/ca_boundingbox.shp"; FionaOpen zones;
                      RasterioOpen rural_region;
                      Mask rural (geometry <$> bb)].
    split_and!.
    - intros w.
      unfold main, mbind, M_bind, lib. rewrite Hbb. simpl. rewrite Hz. simpl.
      rewrite Hopen. simpl. rewrite Hmask. simpl.
      by rewrite <- !(assoc_L (++)).
    - intros ds shapes bb' Hin [= <-].
      repeat (apply elem_of_cons in Hin as [[=]|Hin]; subst; try done).
      by apply elem_of_nil in Hin.
    - intros bb' fs' rural' [= <-] _ [= <-].
      do 3 apply list_elem_of_further. apply list_elem_of_here. }
  destruct (open_w env "rural_urban_pop.csv") as [e|] eqn:Hw.
  { right. exists e, [FionaOpen "data/ca_boundingbox.shp"; FionaOpen zones;
                      RasterioOpen rural_region;
                      Mask rural (geometry <$> bb);
                      OpenW "rural_urban_pop.csv"].
    split_and!.
    - intros w.
      unfold main, mbind, M_bind, lib, open_write.
      rewrite Hbb. simpl. rewrite Hz. simpl.
      rewrite Hopen. simpl. rewrite Hmask. simpl. rewrite Hw. simpl.
      by rewrite <- !(assoc_L (++)).
    - intros ds shapes bb' Hin [= <-].
      repeat (apply elem_of_cons in Hin as [[=]|Hin]; subst; try done).
      by apply elem_of_nil in Hin.
    - intros bb' fs' rural' [= <-] _ [= <-].
      do 3 apply list_elem_of_further. apply list_elem_of_here. }
  left. by exists bb, features, rural, r_img, r_transform.
Qed.

End Main.

End MainFacts.

(** ** The order of the raster paths and the order of the years *)

Module OrderFacts.
Import PyStr Py Script Spec.

Lemma ascii_compare_refl a : Ascii.compare a a = Eq.
Proof. unfold Ascii.compare. apply N.compare_refl. Qed.

Lemma compare_refl s : (s ?= s)%string = Eq.
Proof. induction s as [|a s IH]; simpl; [done|]. by rewrite ascii_compare_refl. Qed.

Lemma compare_app_l p a b :
  ((p +:+ a) ?= (p +:+ b))%string = (a ?= b)%string.
Proof.
  induction p as [|c p IH]; [done|].
  change (String c p +:+ a) with (String c (p +:+ a)).
  change (String c p +:+ b) with (String c (p +:+ b)).
  simpl. by rewrite ascii_compare_refl.
Qed.

Lemma compare_app_r a b s :
  String.length a = String.length b →
  ((a +:+ s) ?= (b +:+ s))%string = (a ?= b)%string.
Proof.
  revert b; induction a as [|c a IH]; intros [|d b] Hlen; simpl in Hlen;
    try done.
  - apply compare_refl.
  - change (String c a +:+ s) with (String c (a +:+ s)).
    change (String d b +:+ s) with (String d (b +:+ s)).
    simpl. rewrite IH by lia. done.
Qed.

(** Two paths of the pattern with years of one width compare as their
    years do. *)
Lemma lspop_path_le y1 y2 :
  String.length y1 = String.length y2 →
  String.le (lspop_path y1) (lspop_path y2) ↔ String.le y1 y2.
Proof.
  intros Hlen. unfold String.le, String.leb, lspop_path.
  by rewrite compare_app_l, compare_app_r.
Qed.

Lemma number_acc_split acc s :
  number_acc acc s = (acc * 10 ^ String.length s + number_acc 0 s)%nat.
Proof.
  revert acc; induction s as [|a s IH]; intros acc; simpl; [lia|].
  rewrite (IH (10 * acc + _)%nat), (IH (_ - 48)%nat).
  rewrite Nat.add_0_r. cbn [Nat.pow]. lia.
Qed.

Lemma number_cons a s :
  number (String a s) =
    ((Ascii.nat_of_ascii a - 48) * 10 ^ String.length s + number s)%nat.
Proof.
  unfold number. cbn [number_acc]. rewrite number_acc_split. f_equal.
Qed.

Lemma number_bound s :
  all_digits s → (number s < 10 ^ String.length s)%nat.
Proof.
  induction s as [|a s IH]; intros Hd; [cbn; lia|].
  destruct Hd as [Ha Hs]. specialize (IH Hs). unfold is_digit in Ha.
  rewrite number_cons. cbn [String.length Nat.pow]. nia.
Qed.

Lemma ascii_compare_nat a b :
  Ascii.compare a b = (Ascii.nat_of_ascii a ?= Ascii.nat_of_ascii b)%nat.
Proof.
  unfold Ascii.compare, Ascii.nat_of_ascii.
  by rewrite N2Nat.inj_compare.
Qed.

(** Among strings of digits of one width the lexicographic order is the
    order of the numbers. *)
Lemma digits_le_number y1 y2 :
  String.length y1 = String.length y2 →
  all_digits y1 → all_digits y2 →
  String.le y1 y2 → (number y1 ≤ number y2)%nat.
Proof.
  unfold String.le, String.leb.
  revert y2; induction y1 as [|a y1 IH]; intros [|b y2] Hlen H1 H2 Hle;
    simpl in Hlen; try done.
  destruct H1 as [Ha H1], H2 as [Hb H2]. unfold is_digit in Ha, Hb.
  cbn [String.compare] in Hle. rewrite ascii_compare_nat in Hle.
  rewrite !number_cons.
  pose proof (number_bound y1 H1) as B1. pose proof (number_bound y2 H2) as B2.
  assert (String.length y1 = String.length y2) as Hl by lia.
  rewrite Hl in B1 |- *.
  destruct (Nat.compare_spec (Ascii.nat_of_ascii a) (Ascii.nat_of_ascii b))
    as [Heq|Hlt|Hgt].
  - rewrite Heq. specialize (IH y2 Hl H1 H2 Hle). lia.
  - nia.
  - done.
Qed.

(** Sorted paths of the pattern with years of one width: the years
    ascend. *)
Lemma sorted_years n years :
  Forall (fixed_width_year n) years →
  Sorted String.le (lspop_path <$> years) →
  Sorted (λ y1 y2, (number y1 ≤ number y2)%nat) years.
Proof.
  induction 1 as [|y years [Hlen Hd] Hys IH]; intros Hs; [constructor|].
  rewrite fmap_cons in Hs. apply Sorted_inv in Hs as [Hs Hhd].
  constructor; [by apply IH|].
  destruct Hys as [|y' years [Hlen' Hd'] _]; [constructor|].
  rewrite fmap_cons in Hhd. apply HdRel_inv in Hhd.
  constructor. apply digits_le_number; try done; [congruence|].
  apply lspop_path_le; [congruence|done].
Qed.

Lemma sorted_is_sorted l : Sorted String.le (sorted l) ∧ sorted l ≡ₚ l.
Proof.
  split; [apply (Sorted_merge_sort String.le)|apply merge_sort_Permutation].
Qed.

End OrderFacts.

(** ** The loop over the rasters: what was opened, what was clipped *)

Module LoopFacts.
Import PyStr NumPy Py Script Zonal Spec.
Import YearFacts EffectFacts BodyFacts MainFacts.

Lemma elem_of_concat {A} (x : A) (ls : list (list A)) :
  x ∈ concat ls ↔ ∃ l, x ∈ l ∧ l ∈ ls.
Proof.
  induction ls as [|l ls IH]; simpl.
  - split; [by intros ?%elem_of_nil|by intros (l & _ & ?%elem_of_nil)].
  - rewrite elem_of_app, IH. split.
    + intros [Hx|(l' & Hx & Hl')].
      * exists l. split; [done|by left].
      * exists l'. split; [done|by right].
    + intros (l' & Hx & [->|Hl']%elem_of_cons); [by left|].
      right. by exists l'.
Qed.

Section Loop.
Context {Geometry Affine Dataset Err : Type}.
Variable env : Env Geometry Affine Dataset Err.

Abbreviation M := (M (Geometry:=Geometry) (Affine:=Affine)
                     (Dataset:=Dataset) (Err:=Err)).

Lemma opened_app (a b : list (call Geometry Affine Dataset)) :
  opened (a ++ b) = opened a ++ opened b.
Proof. apply omap_app. Qed.

(** A round opens its own raster, once, and no other. *)
Lemma opened_year_calls clip_box (features : list (Feature Geometry))
    path (new : list (call Geometry Affine Dataset)) :
  year_calls clip_box features path new → opened new = [path].
Proof.
  intros (rest & -> & Hrest). unfold opened. cbn. f_equal.
  induction rest as [|c rest IH]; [done|]. cbn.
  destruct (Hrest c) as [[ds ->]|(g & aff & ->)]; [by left|..];
    apply IH; intros c' Hc'; apply Hrest; by right.
Qed.

Lemma loop_run_returned {A} (body : A → M ()) l blocks news :
  loop_run body l (Return ()) blocks news →
  Forall2 (λ x new, ∃ b, acts (body x) (Return ()) b new) l news.
Proof.
  intros H. remember (Return ()) as res eqn:Hres.
  induction H; subst; try done; constructor; eauto.
Qed.

(** Every round that was run acted as [body] acts on one element of the
    list. *)
Lemma loop_run_news {A} (body : A → M ()) l res blocks news :
  loop_run body l res blocks news →
  Forall (λ new, ∃ x r b, x ∈ l ∧ acts (body x) r b new) news.
Proof.
  induction 1 as [|x l res rows new blocks news Hx _ IH|x l e rows new Hx].
  - constructor.
  - constructor.
    + exists x, (Return ()), rows. split; [by left|done].
    + eapply Forall_impl; [exact IH|].
      intros n (y & r & b & Hy & Hn). exists y, r, b. split; [by right|done].
  - constructor; [|constructor].
    exists x, (Raise e), rows. split; [by left|done].
Qed.

(** A loop whose first rounds return and whose next round raises. *)
Lemma loop_prefix {A} (body : A → M ()) pre :
  Forall (λ q, ∃ rows new, acts (body q) (Return ()) rows new) pre →
  ∃ done news,
    Forall2 (λ q b, ∃ n, acts (body q) (Return ()) b n) pre done ∧
    Forall2 (λ q n, ∃ b, acts (body q) (Return ()) b n) pre news ∧
    ∀ p post e rows new,
      acts (body p) (Raise e) rows new →
      loop_run body (pre ++ p :: post) (Raise e)
        (done ++ [rows]) (news ++ [new]).
Proof.
  induction 1 as [|q pre (rows & new & Hq) _ (dn & news & Hd & Hn & Hrun)].
  - exists [], []. split; [constructor|]. split; [constructor|].
    intros p post e rows new Hp. by apply loop_abort.
  - exists (rows :: dn), (new :: news).
    split; [constructor; eauto|]. split; [constructor; eauto|].
    intros p post e rows' new' Hp. simpl. apply loop_step; [done|].
    by apply Hrun.
Qed.

Lemma opened_rounds clip_box features r_img pre news :
  Forall2 (λ q n, ∃ b,
             acts (process env clip_box features r_img q) (Return ()) b n)
    pre news →
  opened (concat news) = pre.
Proof.
  induction 1 as [|q n pre news [b Hq] _ IH]; [done|].
  simpl. rewrite opened_app, IH.
  destruct (process_post env _ _ _ _ _ _ _ Hq) as (Hcalls & _).
  by rewrite (opened_year_calls _ _ _ _ Hcalls).
Qed.

(** A round that raises after rounds that returned ends the run with its
    own exception. *)
Lemma main_raises_in_round boundingbox features rural r_img r_transform
    pre p post e rows new :
  preamble_ok env boundingbox features rural r_img r_transform →
  sorted (glob env "data/lspop*/hdr.adf") = pre ++ p :: post →
  Forall (λ q, ∃ rows new,
            acts (process env (geometry <$> boundingbox) features r_img q)
              (Return ()) rows new) pre →
  acts (process env (geometry <$> boundingbox) features r_img p)
    (Raise e) rows new →
  ∀ w, (main env w).1 = Raise e.
Proof.
  intros Hpre Hpaths Hret Hp w.
  destruct (loop_prefix _ pre Hret) as (dn & news & _ & _ & Hrun).
  pose proof (loop_run_acts _ _ _ _ _ (Hrun p post e rows new Hp)) as Hloop.
  rewrite <- Hpaths in Hloop.
  by rewrite (main_after_preamble env _ _ _ _ _ _ _ _ Hpre Hloop).
Qed.

(** The rounds of a run that returns: every raster of the listing was
    opened and clipped, and both its sums were taken. *)
Lemma returning_rounds clip_box features r_img paths blocks news path :
  loop_run (process env clip_box features r_img) paths (Return ()) blocks
    news →
  path ∈ paths →
  ∃ pop p_img aff rural0 urban0 rural_stats urban_stats,
    year_reads env clip_box features r_img path pop p_img aff
      rural0 urban0 rural_stats urban_stats.
Proof.
  intros Hloop Hin.
  apply loop_run_returned in Hloop.
  apply list_elem_of_lookup in Hin as [i Hi].
  destruct (Forall2_lookup_l _ _ _ _ _ Hloop Hi) as (new & Hnew & b & Hq).
  destruct (process_post env _ _ _ _ _ _ _ Hq) as (_ & _ & _ & Hret).
  destruct (Hret eq_refl)
    as (pop & p_img & aff & rural0 & urban0 & rs & us & year & Hreads & _).
  by exists pop, p_img, aff, rural0, urban0, rs, us.
Qed.

End Loop.


End LoopFacts.

(** * The claims of the specification *)

Module Discovery.
Import PyStr NumPy Py Script Zonal Spec.
Import YearFacts EffectFacts BodyFacts MainFacts OrderFacts.

Abbreviation pattern := "data/lspop*/hdr.adf"%string.

Section Discovery.
Context {Geometry Affine Dataset Err : Type}.
Variable env : Env Geometry Affine Dataset Err.

(** C6.  Raster discovery never raises: it asks [glob] for
    [data/lspop*/hdr.adf] and returns the matches in ascending
    lexicographic order; the directories [lspop1998], [lspop2000],
    [lspop1999] come back as 1998, 1999, 2000; without a match the result
    is the empty list, and a run whose earlier reads succeed then returns
    with a file that holds the header row and nothing else. *)
Theorem discovery_sorted :
  acts (get_pop_rasters env) (Return (sorted (glob env pattern))) []
    [Glob pattern] ∧
  Sorted String.le (sorted (glob env pattern)) ∧
  sorted (glob env pattern) ≡ₚ glob env pattern ∧
  (glob env pattern =
     ["data/lspop1998/hdr.adf"; "data/lspop2000/hdr.adf";
      "data/lspop1999/hdr.adf"] →
   sorted (glob env pattern) =
     ["data/lspop1998/hdr.adf"; "data/lspop1999/hdr.adf";
      "data/lspop2000/hdr.adf"]) ∧
  (glob env pattern = [] →
   sorted (glob env pattern) = [] ∧
   ∀ boundingbox features rural r_img r_transform,
     preamble_ok env boundingbox features rural r_img r_transform →
     ∀ w, main env w =
       (Return (),
        mkWorld [[PyStr "id"; PyStr "name"; PyStr "year";
                  PyStr "rural_pop"; PyStr "urban_pop"]]
          (calls w ++ preamble_calls boundingbox rural))).
Proof.
  split; [apply get_pop_rasters_acts|].
  split; [apply sorted_is_sorted|]. split; [apply sorted_is_sorted|]. split.
  - by intros ->.
  - intros Hnone. rewrite Hnone. split; [done|].
    intros bb fs rural r_img r_tr Hpre w.
    rewrite (main_after_preamble env bb fs rural r_img r_tr (Return ()) [] [] Hpre).
    + by rewrite app_nil_r.
    + rewrite Hnone. apply acts_ret.
Qed.

End Discovery.

(** [discovery_sorted] where no [lspop] directory exists. *)
Lemma discovery_sorted_witness :
  glob (Example.env []) pattern = [] ∧
  preamble_ok (Example.env []) [Example.box] [Example.zone_a; Example.zone_b]
    rural_region Example.r_img () ∧
  main (Example.env []) Example.fresh =
    (Return (),
     mkWorld [[PyStr "id"; PyStr "name"; PyStr "year";
               PyStr "rural_pop"; PyStr "urban_pop"]]
       (preamble_calls [Example.box] rural_region)).
Proof.
  assert (preamble_ok (Example.env []) [Example.box]
            [Example.zone_a; Example.zone_b] rural_region Example.r_img ())
    as Hpre by (by repeat split).
  split; [done|]. split; [exact Hpre|].
  exact (proj2 (proj2 (proj2 (proj2 (proj2
           (discovery_sorted (Example.env []))))) eq_refl)
           _ _ _ _ _ Hpre Example.fresh).
Defined.

End Discovery.

Module Records.
Import PyStr NumPy Py Script Zonal Spec.
Import YearFacts EffectFacts BodyFacts MainFacts OrderFacts.

Section Records.
Context {Geometry Affine Dataset Err : Type}.
Variable env : Env Geometry Affine Dataset Err.

(** With one statistic per zone, the rows of a year are as many as the
    zones, and the row at a position is the row of the zone at that
    position with the statistics at that position. *)
Lemma year_rows_lookup (features : list (Feature Geometry))
    rural_stats urban_stats year rows :
  length rural_stats = length features →
  length urban_stats = length features →
  year_rows features rural_stats urban_stats year rows →
  length rows = length features ∧
  ∀ z f, features !! z = Some f →
    ∃ rs us row,
      rural_stats !! z = Some rs ∧ urban_stats !! z = Some us ∧
      rows !! z = Some row ∧ zone_row year f rs us row.
Proof.
  intros Hlr Hlu Hrows. unfold year_rows in Hrows. split.
  - rewrite <- (Forall2_length _ _ _ Hrows).
    rewrite !length_zip_with. lia.
  - intros z f Hf.
    pose proof (lookup_lt_Some _ _ _ Hf) as Hz.
    destruct (lookup_lt_is_Some_2 rural_stats z) as [rs Hrs]; [lia|].
    destruct (lookup_lt_is_Some_2 urban_stats z) as [us Hus]; [lia|].
    assert (zip features (zip rural_stats urban_stats) !! z
            = Some (f, (rs, us))) as Hzip.
    { rewrite !lookup_zip_with, Hf, Hrs, Hus. done. }
    destruct (Forall2_lookup_l _ _ _ _ _ Hrows Hzip) as (row & Hrow & Hzr).
    by exists rs, us, row.
Qed.

(** C2.  A round of the loop that returns has appended exactly one row
    per zone, in the order of the zone list, the row at position [z]
    pairing the attributes of zone [z] with the rural and the urban
    statistic at position [z]; this holds when the zonal statistics come
    one per zone.  A round that raises has appended nothing. *)
Theorem records_per_zone clip_box features r_img path w res w' :
  process env clip_box features r_img path w = (res, w') →
  (∀ g aff l,
     zonal_stats env features g aff = Return l → length l = length features) →
  match res with
  | Return _ =>
      ∃ pop p_img aff rural0 urban0 rural_stats urban_stats year rows,
        year_reads env clip_box features r_img path pop p_img aff
          rural0 urban0 rural_stats urban_stats ∧
        year_of (Err:=Err) path = Return year ∧
        csv_file w' = csv_file w ++ rows ∧
        length rows = length features ∧
        ∀ z f, features !! z = Some f →
          ∃ rs us row,
            rural_stats !! z = Some rs ∧ urban_stats !! z = Some us ∧
            rows !! z = Some row ∧ zone_row year f rs us row
  | Raise _ => csv_file w' = csv_file w
  end.
Proof.
  intros Hrun Hlen.
  destruct (process_acts env clip_box features r_img path)
    as (res' & rows & new & Hacts & _ & Hraise & _ & Hret).
  destruct (acts_run _ _ _ _ _ _ _ Hacts Hrun) as (-> & Hcsv & _).
  destruct res' as [e|[]].
  - rewrite Hcsv, (Hraise e eq_refl). by rewrite app_nil_r.
  - destruct (Hret eq_refl)
      as (pop & p_img & aff & rural0 & urban0 & rs & us & year
          & Hreads & Hy & Hrows & _).
    exists pop, p_img, aff, rural0, urban0, rs, us, year, rows.
    do 3 (split; [done|]).
    destruct Hreads as (_ & _ & _ & Hzr & Hzu).
    apply year_rows_lookup; eauto.
Qed.

End Records.

(** [records_per_zone] on the example data, for the raster of 2010. *)
Lemma records_per_zone_witness :
  ∃ pop p_img aff rural0 urban0 rural_stats urban_stats year rows,
    year_reads (Example.env []) [0%nat] [Example.zone_a; Example.zone_b]
      Example.r_img "data/lspop2010/hdr.adf" pop p_img aff
      rural0 urban0 rural_stats urban_stats ∧
    year_of (Err:=string) "data/lspop2010/hdr.adf" = Return year ∧
    rows = [[PyNum 101; PyStr "Flores"; PyStr "2010"; PyNum 90; PyNum 60];
            [PyNum 102; PyStr "Coban"; PyStr "2010"; PyNum 0; PyNum 60]].
Proof.
  pose (w' := (process (Example.env []) [0%nat]
                 [Example.zone_a; Example.zone_b] Example.r_img
                 "data/lspop2010/hdr.adf" Example.fresh).2).
  assert (process (Example.env []) [0%nat] [Example.zone_a; Example.zone_b]
            Example.r_img "data/lspop2010/hdr.adf" Example.fresh
          = (Return (), w')) as Hrun by (vm_compute; reflexivity).
  assert (∀ g (aff : ()) l,
            zonal_stats (Example.env []) [Example.zone_a; Example.zone_b] g aff
              = Return l → length l = 2%nat) as Hlen.
  { intros g aff l H. injection H as <-. reflexivity. }
  destruct (records_per_zone (Example.env []) _ _ _ _ _ _ _ Hrun Hlen)
    as (pop & p_img & aff & rural0 & urban0 & rs & us & year & rows
        & Hreads & Hy & Hcsv & _).
  exists pop, p_img, aff, rural0, urban0, rs, us, year, rows.
  split; [exact Hreads|]. split; [exact Hy|].
  assert (csv_file w' =
            [[PyNum 101; PyStr "Flores"; PyStr "2010"; PyNum 90; PyNum 60];
             [PyNum 102; PyStr "Coban"; PyStr "2010"; PyNum 0; PyNum 60]])
    as Hw by (vm_compute; reflexivity).
  rewrite Hw in Hcsv. simpl in Hcsv. congruence.
Defined.

End Records.

Module Layout.
Import PyStr NumPy Py Script Zonal Spec.
Import YearFacts EffectFacts BodyFacts MainFacts OrderFacts Records.

Abbreviation pattern := "data/lspop*/hdr.adf"%string.

Lemma all_digits_lacks y : all_digits y → lacks "/" y.
Proof.
  induction y as [|a y IH]; [done|]. intros [Ha Hy]. split; [|by apply IH].
  intros ->. unfold is_digit in Ha.
  change (Ascii.nat_of_ascii "/") with 47%nat in Ha. lia.
Qed.

(** A list of paths of the pattern is the list of its years, mapped. *)
Lemma paths_years n paths :
  Forall (λ p, ∃ y, p = lspop_path y ∧ fixed_width_year n y) paths →
  ∃ years, paths = lspop_path <$> years ∧ Forall (fixed_width_year n) years.
Proof.
  induction 1 as [|p paths (y & -> & Hy) _ (years & -> & Hys)].
  - by exists [].
  - exists (y :: years). split; [done|by constructor].
Qed.

Section Layout.
Context {Geometry Affine Dataset Err : Type}.
Variable env : Env Geometry Affine Dataset Err.

Lemma year_rows_features (features : list (Feature Geometry))
    rural_stats urban_stats year rows :
  length rural_stats = length features →
  length urban_stats = length features →
  year_rows features rural_stats urban_stats year rows →
  Forall2 (λ f row, ∃ i n r u,
             properties f !! "ID_2" = Some i ∧
             properties f !! "NAME_2" = Some n ∧
             row = [i; n; PyStr year; r; u]) features rows.
Proof.
  intros Hlr Hlu Hrows.
  destruct (year_rows_lookup features _ _ _ _ Hlr Hlu Hrows) as [Hlen Hz].
  apply Forall2_same_length_lookup. split; [done|].
  intros z f row Hf Hrow.
  destruct (Hz z f Hf)
    as (rs & us & row' & _ & _ & Hrow' & i & n & Hi & Hn & Heq).
  exists i, n, (sum rs), (sum us). do 2 (split; [done|]).
  congruence.
Qed.

(** C3.  The file of a run that returns is the header row
    [id,name,year,rural_pop,urban_pop] followed by one block of rows per
    discovered raster, the blocks in the ascending lexicographic order of
    the raster paths, and each block holding one row per zone in
    zone-list order with the year of its raster; this holds when the
    zonal statistics come one per zone.  When the discovered paths are
    [data/lspop<year>/hdr.adf] with years of one fixed number of digits,
    the years ascend from block to block. *)
Theorem csv_layout w w' :
  main env w = (Return (), w') →
  (∀ fs g aff l,
     zonal_stats env fs g aff = Return l → length l = length fs) →
  ∃ features blocks,
    fiona_open env zones = Return features ∧
    csv_file w' =
      [PyStr "id"; PyStr "name"; PyStr "year"; PyStr "rural_pop";
       PyStr "urban_pop"] :: concat blocks ∧
    Forall2 (λ path block,
               ∃ year, year_of (Err:=Err) path = Return year ∧
                 Forall2 (λ f row, ∃ i n r u,
                            properties f !! "ID_2" = Some i ∧
                            properties f !! "NAME_2" = Some n ∧
                            row = [i; n; PyStr year; r; u]) features block)
      (sorted (glob env pattern)) blocks ∧
    Sorted String.le (sorted (glob env pattern)) ∧
    sorted (glob env pattern) ≡ₚ glob env pattern ∧
    ∀ n,
      Forall (λ p, ∃ y, p = lspop_path y ∧ fixed_width_year n y)
        (glob env pattern) →
      ∃ years,
        Forall2 (λ path y, year_of (Err:=Err) path = Return y)
          (sorted (glob env pattern)) years ∧
        Sorted (λ y1 y2, (number y1 ≤ number y2)%nat) years.
Proof.
  intros Hrun Hlen.
  destruct (main_cases env) as [(bb & fs & rural & r_img & r_tr & Hpre)
                               |(e & new & Hfail)];
    [|by rewrite (proj1 Hfail) in Hrun].
  destruct (process_loop env (geometry <$> bb) fs r_img
              (sorted (glob env pattern)))
    as (res & blocks & news & Hloop).
  pose proof (loop_run_acts _ _ _ _ _ Hloop) as Hacts.
  rewrite (main_after_preamble env _ _ _ _ _ _ _ _ Hpre Hacts) in Hrun.
  injection Hrun as -> <-.
  exists fs, blocks. split; [apply Hpre|]. split; [done|].
  split; [|split; [apply sorted_is_sorted|split; [apply sorted_is_sorted|]]].
  - apply loop_run_Return in Hloop.
    eapply Forall2_impl; [exact Hloop|]. intros path block [new Hp]. simpl in Hp.
    destruct (process_post env _ _ _ _ _ _ _ Hp) as (_ & _ & _ & Hret).
    destruct (Hret eq_refl)
      as (pop & p_img & aff & rural0 & urban0 & rs & us & year
          & Hreads & Hy & Hrows & _).
    exists year. split; [done|].
    destruct Hreads as (_ & _ & _ & Hzr & Hzu).
    apply (year_rows_features _ rs us); [by eapply Hlen..|done].
  - intros n Hfw.
    assert (Forall (λ p, ∃ y, p = lspop_path y ∧ fixed_width_year n y)
              (sorted (glob env pattern))) as Hfw'.
    { apply Forall_forall. intros p Hp.
      rewrite Forall_forall in Hfw. apply Hfw.
      by rewrite <- (proj2 (sorted_is_sorted (glob env pattern))). }
    destruct (paths_years n _ Hfw') as (years & Hyears & Hwidth).
    exists years. split.
    + rewrite Hyears. apply Forall2_fmap_l, Forall_Forall2_diag.
      eapply Forall_impl; [exact Hwidth|]. intros y [_ Hd]. simpl.
      by apply year_of_lspop_path, all_digits_lacks.
    + apply (sorted_years n); [done|]. rewrite <- Hyears.
      apply sorted_is_sorted.
Qed.

End Layout.

(** [csv_layout] on the example data, the rasters of 2012 and 2010 being
    found in that order. *)
Lemma csv_layout_witness :
  ∃ w',
    main (Example.env ["data/lspop2012/hdr.adf"; "data/lspop2010/hdr.adf"])
      Example.stale = (Return (), w') ∧
    csv_file w' =
      [[PyStr "id"; PyStr "name"; PyStr "year"; PyStr "rural_pop";
        PyStr "urban_pop"];
       [PyNum 101; PyStr "Flores"; PyStr "2010"; PyNum 90; PyNum 60];
       [PyNum 102; PyStr "Coban"; PyStr "2010"; PyNum 0; PyNum 60];
       [PyNum 101; PyStr "Flores"; PyStr "2012"; PyNum 92; PyNum 63];
       [PyNum 102; PyStr "Coban"; PyStr "2012"; PyNum 0; PyNum 61]] ∧
    ∃ features blocks,
      fiona_open
        (Example.env ["data/lspop2012/hdr.adf"; "data/lspop2010/hdr.adf"])
        zones = Return features ∧
      csv_file w' =
        [PyStr "id"; PyStr "name"; PyStr "year"; PyStr "rural_pop";
         PyStr "urban_pop"] :: concat blocks.
Proof.
  pose (e := Example.env ["data/lspop2012/hdr.adf"; "data/lspop2010/hdr.adf"]).
  exists (main e Example.stale).2.
  assert (main e Example.stale = (Return (), (main e Example.stale).2))
    as Hrun by (vm_compute; reflexivity).
  split; [exact Hrun|]. split; [vm_compute; reflexivity|].
  assert (∀ (fs : list (Feature nat)) g (aff : ()) l,
            zonal_stats e fs g aff = Return l → length l = length fs) as Hlen.
  { intros fs g aff l H. injection H as <-. apply length_fmap. }
  destruct (csv_layout e _ _ Hrun Hlen) as (features & blocks & Hz & Hcsv & _).
  by exists features, blocks.
Defined.

End Layout.

Module Failure.
Import PyStr NumPy Py Script Zonal Spec.
Import YearFacts EffectFacts BodyFacts MainFacts LoopFacts.

Abbreviation pattern := "data/lspop*/hdr.adf"%string.

Section Failure.
Context {Geometry Affine Dataset Err : Type}.
Variable env : Env Geometry Affine Dataset Err.

(** C7.  Let the reads before the loop succeed, and let the rounds for
    the rasters [pre] return.  If the round for the next raster [p]
    raises [e], the run raises [e]; in particular, if a library
    operation on [p] fails with [e0], the run raises that very [e0].
    The file then holds the header and the rows of [pre], and nothing of
    [p] or of a later raster; the rasters opened were, in this order, the
    land-use raster, those of [pre], and [p] once. *)
Theorem failure_aborts boundingbox features rural r_img r_transform
    pre p post :
  preamble_ok env boundingbox features rural r_img r_transform →
  sorted (glob env pattern) = pre ++ p :: post →
  Forall (λ q, ∃ rows new,
            acts (process env (geometry <$> boundingbox) features r_img q)
              (Return ()) rows new) pre →
  ∃ done,
    Forall2 (λ q block, ∃ new,
               acts (process env (geometry <$> boundingbox) features r_img q)
                 (Return ()) block new) pre done ∧
    (∀ e,
       (∃ rows new,
          acts (process env (geometry <$> boundingbox) features r_img p)
            (Raise e) rows new) →
       ∃ new, opened new = rural_region :: pre ++ [p] ∧
         ∀ w, main env w =
           (Raise e,
            mkWorld ([PyStr "id"; PyStr "name"; PyStr "year";
                      PyStr "rural_pop"; PyStr "urban_pop"] :: concat done)
              (calls w ++ new))) ∧
    (∀ e0,
       fails_with env (geometry <$> boundingbox) features r_img p e0 →
       ∃ new, opened new = rural_region :: pre ++ [p] ∧
         ∀ w, main env w =
           (Raise (LibError e0),
            mkWorld ([PyStr "id"; PyStr "name"; PyStr "year";
                      PyStr "rural_pop"; PyStr "urban_pop"] :: concat done)
              (calls w ++ new))).
Proof.
  intros Hpre Hpaths Hret.
  destruct (loop_prefix _ pre Hret) as (dn & news & Hdone & Hnews & Hrun).
  exists dn. split; [done|].
  assert (∀ e,
    (∃ rows new,
       acts (process env (geometry <$> boundingbox) features r_img p)
         (Raise e) rows new) →
    ∃ new, opened new = rural_region :: pre ++ [p] ∧
      ∀ w, main env w =
        (Raise e,
         mkWorld ([PyStr "id"; PyStr "name"; PyStr "year";
                   PyStr "rural_pop"; PyStr "urban_pop"] :: concat dn)
           (calls w ++ new))) as Hgen.
  { intros e (rows & new & Hp).
    destruct (process_post env _ _ _ _ _ _ _ Hp) as (Hcalls & Hrows & _).
    rewrite (Hrows e eq_refl) in Hp.
    pose proof (loop_run_acts _ _ _ _ _ (Hrun p post e [] new Hp)) as Hloop.
    rewrite <- Hpaths in Hloop.
    exists (preamble_calls boundingbox rural ++ concat (news ++ [new])).
    split.
    - rewrite opened_app, concat_app, opened_app. simpl.
      rewrite app_nil_r, (opened_rounds env _ _ _ _ _ Hnews).
      by rewrite (opened_year_calls _ _ _ _ Hcalls).
    - intros w.
      rewrite (main_after_preamble env _ _ _ _ _ _ _ _ Hpre Hloop).
      rewrite concat_app. simpl. by rewrite !app_nil_r. }
  split; [exact Hgen|].
  intros e0 Hfail. apply Hgen.
  destruct (process_fails env _ _ _ _ _ Hfail) as (new & Hp & _).
  by exists [], new.
Qed.

(** The clips a run records: each with the geometries of all features of
    the bounding-box file, as many as the file has. *)
Lemma clips_recorded boundingbox w res w' :
  fiona_open env "data/ca_boundingbox.shp" = Return boundingbox →
  main env w = (res, w') →
  ∃ new, calls w' = calls w ++ new ∧
    (∀ ds shapes, Mask ds shapes ∈ new →
       shapes = geometry <$> boundingbox ∧
       length shapes = length boundingbox) ∧
    (∀ features rural,
       fiona_open env zones = Return features →
       rasterio_open env rural_region = Return rural →
       Mask rural (geometry <$> boundingbox) ∈ new) ∧
    (res = Return () →
     ∀ path, path ∈ glob env pattern →
       ∃ pop, rasterio_open env path = Return pop ∧
              Mask pop (geometry <$> boundingbox) ∈ new) ∧
    (boundingbox = [] →
     ∀ features rural,
       fiona_open env zones = Return features →
       rasterio_open env rural_region = Return rural →
       Mask rural [] ∈ new).
Proof.
  intros Hbb Hrun.
  assert (∀ new : list (call Geometry Affine Dataset),
    (∀ ds shapes, Mask ds shapes ∈ new → shapes = geometry <$> boundingbox) →
    (∀ features rural,
       fiona_open env zones = Return features →
       rasterio_open env rural_region = Return rural →
       Mask rural (geometry <$> boundingbox) ∈ new) →
    (∀ ds shapes, Mask ds shapes ∈ new →
       shapes = geometry <$> boundingbox ∧
       length shapes = length boundingbox) ∧
    (∀ features rural,
       fiona_open env zones = Return features →
       rasterio_open env rural_region = Return rural →
       Mask rural (geometry <$> boundingbox) ∈ new) ∧
    (boundingbox = [] →
     ∀ features rural,
       fiona_open env zones = Return features →
       rasterio_open env rural_region = Return rural →
       Mask rural [] ∈ new)) as Hshape.
  { intros new Hall Hrural. split_and!; [|done|].
    - intros ds shapes Hin. rewrite (Hall ds shapes Hin).
      split; [done|]. by rewrite length_fmap.
    - intros -> fs rural Hz Hopen. by apply (Hrural fs rural). }
  destruct (main_cases env)
    as [(bb & fs & rural & r_img & r_tr & Hpre)
       |(e & new & Hfail & Hmask & Hrural)].
  - assert (bb = boundingbox) as ->.
    { destruct Hpre as (Hbb' & _). congruence. }
    destruct (process_loop env (geometry <$> boundingbox) fs r_img
                (sorted (glob env pattern)))
      as (res' & blocks & news & Hloop).
    pose proof (loop_run_acts _ _ _ _ _ Hloop) as Hacts.
    rewrite (main_after_preamble env _ _ _ _ _ _ _ _ Hpre Hacts) in Hrun.
    injection Hrun as <- <-.
    exists (preamble_calls boundingbox rural ++ concat news).
    split; [done|].
    destruct (Hshape (preamble_calls boundingbox rural ++ concat news))
      as (H1 & H2 & H3).
    + intros ds shapes [Hin|Hin]%elem_of_app.
      * unfold preamble_calls in Hin.
        repeat (apply elem_of_cons in Hin as [[=]|Hin]; subst; try done).
        by apply elem_of_nil in Hin.
      * apply elem_of_concat in Hin as (new & Hin & Hnew).
        pose proof (loop_run_news _ _ _ _ _ Hloop) as Hnews.
        rewrite Forall_forall in Hnews.
        destruct (Hnews new Hnew) as (q & r & b & _ & Hq).
        destruct (process_post env _ _ _ _ _ _ _ Hq)
          as ((rest & -> & Hrest) & _).
        apply elem_of_cons in Hin as [[=]|Hin].
        destruct (Hrest _ Hin) as [[ds' [= _ ->]]|(g & aff & [=])]. done.
    + intros fs' rural' _ Hopen. destruct Hpre as (_ & _ & Hopen' & _).
      assert (rural' = rural) as -> by congruence.
      apply elem_of_app. left. unfold preamble_calls.
      do 3 apply list_elem_of_further. apply list_elem_of_here.
    + split_and!; try done.
      intros -> path Hpath.
      apply loop_run_returned in Hloop.
      assert (path ∈ sorted (glob env pattern)) as Hin.
      { unfold sorted. by rewrite merge_sort_Permutation. }
      apply list_elem_of_lookup in Hin as [i Hi].
      destruct (Forall2_lookup_l _ _ _ _ _ Hloop Hi) as (new & Hnew & b & Hq).
      destruct (process_post env _ _ _ _ _ _ _ Hq) as (_ & _ & _ & Hret).
      destruct (Hret eq_refl)
        as (pop & p_img & aff & rural0 & urban0 & rs & us & year
            & (Hopen & _) & _ & _ & ->).
      exists pop. split; [done|].
      apply elem_of_app. right. apply elem_of_concat.
      eexists. split; [|by eapply list_elem_of_lookup_2].
      apply list_elem_of_further, list_elem_of_here.
  - rewrite Hfail in Hrun. injection Hrun as <- <-.
    exists new. split; [done|].
    destruct (Hshape new) as (H1 & H2 & H3).
    + intros ds shapes Hin. by eapply Hmask.
    + intros fs rural Hz Hopen. by eapply Hrural.
    + split_and!; done.
Qed.

(** C8.  The clip box is the list of the geometries of all features of
    the bounding-box file, whatever their number, and it is this list
    that [mask] is applied to, for the land-use raster and for every
    population raster: when [mask], at the land-use raster and this
    list, raises, the run raises that error and leaves the output file
    as it was; when [mask], at a population raster and this list,
    raises after rounds that returned, the run raises that error; and a
    run returns only if [mask], at this list, returned for the land-use
    raster and for every raster of the listing.  The script checks
    nothing about the number of features: with a file without features
    the list is empty, and what [mask] answers to the empty list decides
    the run in the same way.  The calls recorded say the same. *)
Theorem clip_box_all_features boundingbox :
  fiona_open env "data/ca_boundingbox.shp" = Return boundingbox →
  (∀ features rural e,
     fiona_open env zones = Return features →
     rasterio_open env rural_region = Return rural →
     mask env rural (geometry <$> boundingbox) = Raise e →
     ∀ w, main env w =
       (Raise (LibError e),
        mkWorld (csv_file w)
          (calls w ++ [FionaOpen "data/ca_boundingbox.shp"; FionaOpen zones;
                       RasterioOpen rural_region;
                       Mask rural (geometry <$> boundingbox)]))) ∧
  (∀ features rural r_img r_transform pre p post pop e,
     preamble_ok env boundingbox features rural r_img r_transform →
     sorted (glob env pattern) = pre ++ p :: post →
     Forall (λ q, ∃ rows new,
               acts (process env (geometry <$> boundingbox) features r_img q)
                 (Return ()) rows new) pre →
     rasterio_open env p = Return pop →
     mask env pop (geometry <$> boundingbox) = Raise e →
     ∀ w, (main env w).1 = Raise (LibError e)) ∧
  (∀ w w',
     main env w = (Return (), w') →
     (∃ rural r_img r_transform,
        rasterio_open env rural_region = Return rural ∧
        mask env rural (geometry <$> boundingbox) =
          Return (r_img, r_transform)) ∧
     (∀ path, path ∈ glob env pattern →
        ∃ pop p_img p_transform,
          rasterio_open env path = Return pop ∧
          mask env pop (geometry <$> boundingbox) =
            Return (p_img, p_transform))) ∧
  (boundingbox = [] →
   ∀ features rural e,
     fiona_open env zones = Return features →
     rasterio_open env rural_region = Return rural →
     mask env rural [] = Raise e →
     ∀ w, (main env w).1 = Raise (LibError e)) ∧
  (∀ w res w',
     main env w = (res, w') →
     ∃ new, calls w' = calls w ++ new ∧
       ∀ ds shapes, Mask ds shapes ∈ new →
         shapes = geometry <$> boundingbox ∧
         length shapes = length boundingbox).
Proof.
  intros Hbb.
  assert (∀ features rural e,
     fiona_open env zones = Return features →
     rasterio_open env rural_region = Return rural →
     mask env rural (geometry <$> boundingbox) = Raise e →
     ∀ w, main env w =
       (Raise (LibError e),
        mkWorld (csv_file w)
          (calls w ++ [FionaOpen "data/ca_boundingbox.shp"; FionaOpen zones;
                       RasterioOpen rural_region;
                       Mask rural (geometry <$> boundingbox)]))) as Hrural.
  { intros features rural e Hz Hopen Hmask w.
    unfold main, mbind, M_bind, lib. rewrite Hbb. simpl. rewrite Hz. simpl.
    rewrite Hopen. simpl. rewrite Hmask. simpl.
    by rewrite <- !(assoc_L (++)). }
  split_and!.
  - exact Hrural.
  - intros features rural r_img r_transform pre p post pop e
      Hpre Hpaths Hret Hopen Hmask w.
    destruct (process_fails env (geometry <$> boundingbox) features r_img p e)
      as (new & Hp & _).
    { by eapply fails_mask. }
    by eapply main_raises_in_round.
  - intros w w' Hrun.
    destruct (main_cases env)
      as [(bb & fs & rural & r_img & r_tr & Hpre)
         |(e & new & Hfail & _)]; [|by rewrite Hfail in Hrun].
    assert (bb = boundingbox) as ->.
    { destruct Hpre as (Hbb' & _). congruence. }
    destruct (process_loop env (geometry <$> boundingbox) fs r_img
                (sorted (glob env pattern)))
      as (res' & blocks & news & Hloop).
    pose proof (loop_run_acts _ _ _ _ _ Hloop) as Hacts.
    rewrite (main_after_preamble env _ _ _ _ _ _ _ _ Hpre Hacts) in Hrun.
    injection Hrun as -> _.
    split.
    + destruct Hpre as (_ & _ & Hopen & Hmask & _).
      by exists rural, r_img, r_tr.
    + intros path Hpath.
      assert (path ∈ sorted (glob env pattern)) as Hin.
      { unfold sorted. by rewrite merge_sort_Permutation. }
      destruct (returning_rounds env _ _ _ _ _ _ _ Hloop Hin)
        as (pop & p_img & aff & rural0 & urban0 & rs & us
            & Hopen & Hmask & _).
      by exists pop, p_img, aff.
  - intros -> features rural e Hz Hopen Hmask w.
    by rewrite (Hrural features rural e Hz Hopen Hmask w).
  - intros w res w' Hrun.
    destruct (clips_recorded boundingbox w res w' Hbb Hrun)
      as (new & Hcalls & Hall & _).
    by exists new.
Qed.

End Failure.

(** [failure_aborts] on the example data: 2010 is read, 2011 is not a
    raster, 2012 is never opened. *)
Lemma failure_aborts_witness :
  ∃ done new,
    opened new =
      [rural_region; "data/lspop2010/hdr.adf"; "data/lspop2011/hdr.adf"] ∧
    (∀ w,
       main (Example.env ["data/lspop2011/hdr.adf"; "data/lspop2010/hdr.adf";
                          "data/lspop2012/hdr.adf"]) w =
         (Raise (LibError "not a raster"),
          mkWorld ([PyStr "id"; PyStr "name"; PyStr "year";
                    PyStr "rural_pop"; PyStr "urban_pop"] :: concat done)
            (calls w ++ new))) ∧
    csv_file
      (main (Example.env ["data/lspop2011/hdr.adf"; "data/lspop2010/hdr.adf";
                          "data/lspop2012/hdr.adf"]) Example.stale).2 =
      [[PyStr "id"; PyStr "name"; PyStr "year"; PyStr "rural_pop";
        PyStr "urban_pop"];
       [PyNum 101; PyStr "Flores"; PyStr "2010"; PyNum 90; PyNum 60];
       [PyNum 102; PyStr "Coban"; PyStr "2010"; PyNum 0; PyNum 60]].
Proof.
  pose (e := Example.env ["data/lspop2011/hdr.adf"; "data/lspop2010/hdr.adf";
                          "data/lspop2012/hdr.adf"]).
  assert (preamble_ok e [Example.box] [Example.zone_a; Example.zone_b]
            rural_region Example.r_img ()) as Hpre by (by repeat split).
  assert (sorted (glob e pattern) =
            ["data/lspop2010/hdr.adf"] ++
            "data/lspop2011/hdr.adf" :: ["data/lspop2012/hdr.adf"])
    as Hpaths by (vm_compute; reflexivity).
  assert (Forall (λ q, ∃ rows new,
            acts (process e (geometry <$> [Example.box])
                    [Example.zone_a; Example.zone_b] Example.r_img q)
              (Return ()) rows new) ["data/lspop2010/hdr.adf"]) as Hret.
  { constructor; [|constructor].
    destruct (process_acts e (geometry <$> [Example.box])
                [Example.zone_a; Example.zone_b] Example.r_img
                "data/lspop2010/hdr.adf")
      as (res & rows & new & Hacts & _).
    pose proof (Hacts Example.fresh) as Hrun.
    assert (res = Return ()) as -> by (vm_compute in Hrun; congruence).
    by exists rows, new. }
  assert (fails_with e (geometry <$> [Example.box])
            [Example.zone_a; Example.zone_b] Example.r_img
            "data/lspop2011/hdr.adf" "not a raster") as Hfail.
  { by eapply (fails_mask e _ _ _ _ _ "data/lspop2011/hdr.adf"). }
  destruct (failure_aborts e _ _ _ _ _ _ _ _ Hpre Hpaths Hret)
    as (dn & _ & _ & Hlib).
  destruct (Hlib _ Hfail) as (new & Hopened & Hmain).
  exists dn, new. split; [exact Hopened|]. split; [exact Hmain|].
  vm_compute. reflexivity.
Defined.

(** [clip_box_all_features] with a clip that reads its shapes.  With two
    boxes in the file, a clip that accepts exactly their two geometries
    lets the run return, and one that accepts only the first of them
    makes the run raise; with no box in the file, a clip that wants one
    geometry is handed none, and the run raises. *)
Lemma clip_box_all_features_witness :
  (main (More.env_strict [Example.box; More.box7] [0; 7]%nat
           ["data/lspop2010/hdr.adf"]) Example.fresh).1 = Return () ∧
  (∃ p_img p_transform,
     mask (More.env_strict [Example.box; More.box7] [0; 7]%nat
             ["data/lspop2010/hdr.adf"])
       "data/lspop2010/hdr.adf" (geometry <$> [Example.box; More.box7]) =
       Return (p_img, p_transform)) ∧
  (∀ w, main (More.env_strict [Example.box; More.box7] [0]%nat
                ["data/lspop2010/hdr.adf"]) w =
     (Raise (LibError "Input shapes do not overlap raster."),
      mkWorld (csv_file w)
        (calls w ++ [FionaOpen "data/ca_boundingbox.shp"; FionaOpen zones;
                     RasterioOpen rural_region;
                     Mask rural_region [0; 7]%nat]))) ∧
  (∀ w, (main (More.env_strict [] [0]%nat ["data/lspop2010/hdr.adf"]) w).1 =
     Raise (LibError "Input shapes do not overlap raster.")).
Proof.
  split_and!.
  - vm_compute. reflexivity.
  - pose (e := More.env_strict [Example.box; More.box7] [0; 7]%nat
                 ["data/lspop2010/hdr.adf"]).
    assert (fiona_open e "data/ca_boundingbox.shp" =
              Return [Example.box; More.box7]) as Hbb by reflexivity.
    assert (main e Example.fresh = (Return (), (main e Example.fresh).2))
      as Hrun by (vm_compute; reflexivity).
    destruct (clip_box_all_features e _ Hbb) as (_ & _ & Hret & _).
    destruct (Hret _ _ Hrun) as (_ & Hpop).
    destruct (Hpop "data/lspop2010/hdr.adf")
      as (pop & p_img & aff & Hopen & Hmask).
    { by apply list_elem_of_singleton. }
    injection Hopen as <-. by exists p_img, aff.
  - pose (e := More.env_strict [Example.box; More.box7] [0]%nat
                 ["data/lspop2010/hdr.adf"]).
    assert (fiona_open e "data/ca_boundingbox.shp" =
              Return [Example.box; More.box7]) as Hbb by reflexivity.
    destruct (clip_box_all_features e _ Hbb) as (Hrural & _).
    apply (Hrural [Example.zone_a; Example.zone_b] rural_region);
      reflexivity.
  - pose (e := More.env_strict [] [0]%nat ["data/lspop2010/hdr.adf"]).
    assert (fiona_open e "data/ca_boundingbox.shp" = Return []) as Hbb
      by reflexivity.
    destruct (clip_box_all_features e _ Hbb) as (_ & _ & _ & Hnone & _).
    apply (Hnone eq_refl [Example.zone_a; Example.zone_b] rural_region);
      reflexivity.
Defined.

End Failure.

Module Bands.
Import PyStr NumPy Py Script Zonal Spec.
Import NumPyFacts YearFacts EffectFacts BodyFacts MainFacts.

Section Bands.
Context {Geometry Affine Dataset Err : Type}.
Variable env : Env Geometry Affine Dataset Err.

(** C9.  The zonal sums of a round are taken on band 0 of the two
    derived arrays, and on nothing else of the clipped raster.  A round
    that returns has applied [zonal_stats] to the first band of the
    rural and to the first band of the urban array, and its rows hold
    the sums that came back; conversely, when both arrays have a first
    band, what [zonal_stats] answers on these two bands is what the
    round does: a failure on either is the failure of the round, and
    two answers give the rows of the year.  Two clipped rasters with the
    same number of bands and the same first band are therefore
    aggregated alike: the statistics asked for, the rows written and
    the outcome are the same, whatever the other bands hold. *)
Theorem first_band_only features r_img p_img p_img' p_transform pop_raster :
  (∀ w w',
     aggregate env features r_img p_img p_transform pop_raster w =
       (Return (), w') →
     ∃ rural_pop urban_pop rural0 urban0 rural_stats urban_stats year rows,
       where_ (eq_scalar r_img 1) p_img 0 = Some rural_pop ∧
       where_ (eq_scalar r_img 0) p_img 0 = Some urban_pop ∧
       rural_pop !! 0%nat = Some rural0 ∧
       urban_pop !! 0%nat = Some urban0 ∧
       zonal_stats env features rural0 p_transform = Return rural_stats ∧
       zonal_stats env features urban0 p_transform = Return urban_stats ∧
       year_of (Err:=Err) pop_raster = Return year ∧
       year_rows features rural_stats urban_stats year rows ∧
       w' = mkWorld (csv_file w ++ rows)
              (calls w ++ [ZonalStats features rural0 p_transform;
                           ZonalStats features urban0 p_transform])) ∧
  (∀ rural_pop urban_pop rural0 urban0,
     where_ (eq_scalar r_img 1) p_img 0 = Some rural_pop →
     where_ (eq_scalar r_img 0) p_img 0 = Some urban_pop →
     rural_pop !! 0%nat = Some rural0 →
     urban_pop !! 0%nat = Some urban0 →
     (∀ e,
        zonal_stats env features rural0 p_transform = Raise e →
        acts (aggregate env features r_img p_img p_transform pop_raster)
          (Raise (LibError e)) [] [ZonalStats features rural0 p_transform]) ∧
     (∀ rural_stats e,
        zonal_stats env features rural0 p_transform = Return rural_stats →
        zonal_stats env features urban0 p_transform = Raise e →
        acts (aggregate env features r_img p_img p_transform pop_raster)
          (Raise (LibError e)) []
          [ZonalStats features rural0 p_transform;
           ZonalStats features urban0 p_transform]) ∧
     (∀ rural_stats urban_stats year,
        zonal_stats env features rural0 p_transform = Return rural_stats →
        zonal_stats env features urban0 p_transform = Return urban_stats →
        year_of (Err:=Err) pop_raster = Return year →
        Forall (λ z, has_keys z.1)
          (zip features (zip rural_stats urban_stats)) →
        ∃ rows,
          acts (aggregate env features r_img p_img p_transform pop_raster)
            (Return ()) rows
            [ZonalStats features rural0 p_transform;
             ZonalStats features urban0 p_transform] ∧
          year_rows features rural_stats urban_stats year rows)) ∧
  (length p_img = length p_img' →
   p_img !! 0%nat = p_img' !! 0%nat →
   ∀ w, aggregate env features r_img p_img p_transform pop_raster w =
        aggregate env features r_img p_img' p_transform pop_raster w).
Proof.
  split_and!.
  - intros w w' Hrun.
    destruct (aggregate_returned env _ _ _ _ _ _ _ Hrun)
      as (r0 & u0 & rs & us & year & rows
          & ((rp & up & H1 & H0 & Hr0 & Hu0) & Hzr & Hzu) & Hy & Hrows & ->).
    by exists rp, up, r0, u0, rs, us, year, rows.
  - intros rural_pop urban_pop rural0 urban0 H1 H0 Hr0 Hu0. split_and!.
    + intros e Hzr. by eapply aggregate_fails_rural.
    + intros rs e Hzr Hzu. by eapply aggregate_fails_urban.
    + intros rs us year Hzr Hzu Hy Hkeys.
      apply aggregate_returns; [|done..].
      split; [by exists rural_pop, urban_pop|done].
  - intros Hlen Hband w.
    assert (nth 0 p_img [] = nth 0 p_img' []) as Hnth
      by (by rewrite !nth_lookup, Hband).
    pose proof (shape_band0 _ _ Hlen Hnth) as Hshape.
    pose proof (where_band0 (eq_scalar r_img 1) _ _ 0 Hlen Hnth) as Hr.
    pose proof (where_band0 (eq_scalar r_img 0) _ _ 0 Hlen Hnth) as Hu.
    unfold aggregate, mbind, M_bind, pure, index.
    destruct (where_ (eq_scalar r_img 1) p_img 0) as [rp|] eqn:H1;
      destruct (where_ (eq_scalar r_img 1) p_img' 0) as [rp'|] eqn:H1';
      try (apply (where_None_shape _ _ p_img) in H1'; [congruence|done]);
      try (apply (where_None_shape _ _ p_img') in H1; [congruence|done]);
      [|done].
    destruct (where_ (eq_scalar r_img 0) p_img 0) as [up|] eqn:H0;
      destruct (where_ (eq_scalar r_img 0) p_img' 0) as [up'|] eqn:H0';
      try (apply (where_None_shape _ _ p_img) in H0'; [congruence|done]);
      try (apply (where_None_shape _ _ p_img') in H0; [congruence|done]);
      [|done].
    simpl in Hr, Hu. simpl. by rewrite Hr, Hu.
Qed.

End Bands.

(** [first_band_only] on the raster of 2012, which has two bands: the
    sums are those of its first band, and they stay when the second band
    is replaced. *)
Lemma first_band_only_witness :
  (∃ rural_pop urban_pop rows,
     where_ (eq_scalar Example.r_img 1) Example.p2012 0 = Some rural_pop ∧
     where_ (eq_scalar Example.r_img 0) Example.p2012 0 = Some urban_pop ∧
     rural_pop !! 0%nat = Some [[0; 0; 0; 0]; [41; 51; 0; 0]] ∧
     urban_pop !! 0%nat = Some [[11; 21; 31; 0]; [0; 0; 61; 0]] ∧
     rows = [[PyNum 101; PyStr "Flores"; PyStr "2012"; PyNum 92; PyNum 63];
             [PyNum 102; PyStr "Coban"; PyStr "2012"; PyNum 0; PyNum 61]] ∧
     aggregate (Example.env []) [Example.zone_a; Example.zone_b]
       Example.r_img Example.p2012 () "data/lspop2012/hdr.adf" Example.fresh =
       (Return (),
        mkWorld rows
          [ZonalStats [Example.zone_a; Example.zone_b]
             [[0; 0; 0; 0]; [41; 51; 0; 0]] ();
           ZonalStats [Example.zone_a; Example.zone_b]
             [[11; 21; 31; 0]; [0; 0; 61; 0]] ()])) ∧
  aggregate (Example.env []) [Example.zone_a; Example.zone_b] Example.r_img
    Example.p2012 () "data/lspop2012/hdr.adf" Example.fresh =
  aggregate (Example.env []) [Example.zone_a; Example.zone_b] Example.r_img
    [[[11; 21; 31; 7]; [41; 51; 61; 9]]; [[5; 5; 5; 5]; [8; 8; 8; 8]]]
    () "data/lspop2012/hdr.adf" Example.fresh.
Proof.
  destruct (first_band_only (Example.env [])
              [Example.zone_a; Example.zone_b] Example.r_img Example.p2012
              [[[11; 21; 31; 7]; [41; 51; 61; 9]];
               [[5; 5; 5; 5]; [8; 8; 8; 8]]] () "data/lspop2012/hdr.adf")
    as (Hret & _ & Hsame).
  split; [|apply Hsame; reflexivity].
  destruct (Hret Example.fresh
              (aggregate (Example.env []) [Example.zone_a; Example.zone_b]
                 Example.r_img Example.p2012 () "data/lspop2012/hdr.adf"
                 Example.fresh).2)
    as (rp & up & r0 & u0 & rs & us & year & rows
        & H1 & H0 & Hr0 & Hu0 & Hzr & Hzu & Hy & Hrows & Hw).
  { vm_compute. reflexivity. }
  exists rp, up, rows.
  do 2 (split; [done|]).
  vm_compute in H1. injection H1 as <-.
  vm_compute in H0. injection H0 as <-.
  injection Hr0 as <-. injection Hu0 as <-.
  do 2 (split; [reflexivity|]).
  vm_compute in Hw. injection Hw as <-.
  split; [reflexivity|]. vm_compute. reflexivity.
Defined.

End Bands.

Module Partition.
Import PyStr NumPy Py Script Zonal Spec.
Import NumPyFacts SelectFacts YearFacts EffectFacts BodyFacts MainFacts.

Lemma zip_fmap_diag {A B C} (f : A → B) (g : A → C) (l : list A) :
  zip l (zip (f <$> l) (g <$> l)) = (λ x, (x, (f x, g x))) <$> l.
Proof. induction l as [|x l IH]; [done|]. cbn. by f_equal. Qed.

(** The two zonal sums of a zone, on arrays with the same rows and
    columns: rural over the pixels of class 1, urban over those of class
    0, and together over the pixels of either class. *)
Lemma zone_sums (r_img p_img rural_pop urban_pop : ndarray Z)
    (rural0 urban0 : grid Z) (cells : list cell) :
  rect r_img →
  (shape r_img).1.2 = (shape p_img).1.2 → (shape r_img).2 = (shape p_img).2 →
  where_ (eq_scalar r_img 1) p_img 0 = Some rural_pop →
  where_ (eq_scalar r_img 0) p_img 0 = Some urban_pop →
  rural_pop !! 0%nat = Some rural0 → urban_pop !! 0%nat = Some urban0 →
  Forall (in_grid (shape p_img).1.2 (shape p_img).2) cells →
  zone_sum cells rural0 =
    zone_sum (filter (λ c, bool_decide (item 0 r_img 0 c.1 c.2 = 1)) cells)
      (nth 0 p_img []) ∧
  zone_sum cells urban0 =
    zone_sum (filter (λ c, bool_decide (item 0 r_img 0 c.1 c.2 = 0)) cells)
      (nth 0 p_img []) ∧
  zone_sum cells rural0 + zone_sum cells urban0 =
    zone_sum (filter (λ c, classified (item 0 r_img 0 c.1 c.2)) cells)
      (nth 0 p_img []).
Proof.
  intros Hrect Hh Hw H1 H0 Hr0 Hu0 Hcells.
  assert (∀ c, c ∈ cells →
    cell_value rural0 c =
      (if bool_decide (item 0 r_img 0 c.1 c.2 = 1)
       then cell_value (nth 0 p_img []) c else 0) ∧
    cell_value urban0 c =
      (if bool_decide (item 0 r_img 0 c.1 c.2 = 0)
       then cell_value (nth 0 p_img []) c else 0)) as Hcell.
  { intros [j k] Hc. rewrite Forall_forall in Hcells.
    destruct (Hcells _ Hc) as [Hj Hk]. cbn [fst snd] in Hj, Hk.
    assert (0 < (shape r_img).1.1)%nat as Hb.
    { destruct (shape_normal r_img) as [Hn _]. lia. }
    unfold cell_value. cbn [fst snd].
    rewrite (where_band0_pixels _ _ _ _ _ H1 Hr0), 
      (where_band0_pixels _ _ _ _ _ H0 Hu0)
      by (by rewrite ?shape_eq_scalar).
    by rewrite !item_eq_scalar by (done || lia). }
  split_and!.
  - apply zone_sum_filter. intros c Hc. apply Hcell, Hc.
  - apply zone_sum_filter. intros c Hc. apply Hcell, Hc.
  - apply zone_sum_pointwise. intros c Hc.
    destruct (Hcell c Hc) as [-> ->]. unfold classified.
    repeat case_bool_decide; try lia; naive_solver.
Qed.

Section Partition.
Context {Geometry Affine Dataset Err : Type}.
Variable env : Env Geometry Affine Dataset Err.

(** C1.  Let the zonal statistic of a zone be the sum of the grid over
    the pixels of the zone, and let the land-use array and the clipped
    population array have the same rows and columns.  Then in every row a
    returning round
    writes, the rural sum is the population of the zone's pixels of class
    1, the urban sum that of its pixels of class 0, and the two add up to
    the population of the zone's pixels of class 0 or 1: no-data pixels
    are left out of both.  Population is that of the first band. *)
Theorem rural_plus_urban
    (cells_of : Feature Geometry → Affine → list cell)
    clip_box features r_img path w w' pop p_img aff :
  (∀ fs g a, zonal_stats env fs g a = zonal_sum_stats cells_of fs g a) →
  rect r_img →
  (shape r_img).1.2 = (shape p_img).1.2 → (shape r_img).2 = (shape p_img).2 →
  (∀ f, f ∈ features →
     Forall (in_grid (shape p_img).1.2 (shape p_img).2) (cells_of f aff)) →
  rasterio_open env path = Return pop →
  mask env pop clip_box = Return (p_img, aff) →
  process env clip_box features r_img path w = (Return (), w') →
  ∃ rows,
    csv_file w' = csv_file w ++ rows ∧
    Forall2 (λ f row,
      ∃ i n y a b,
        row = [i; n; y; PyNum a; PyNum b] ∧
        a = zone_sum
              (filter (λ c, bool_decide (item 0 r_img 0 c.1 c.2 = 1))
                 (cells_of f aff)) (nth 0 p_img []) ∧
        b = zone_sum
              (filter (λ c, bool_decide (item 0 r_img 0 c.1 c.2 = 0))
                 (cells_of f aff)) (nth 0 p_img []) ∧
        a + b = zone_sum
                  (filter (λ c, classified (item 0 r_img 0 c.1 c.2))
                     (cells_of f aff)) (nth 0 p_img []))
      features rows.
Proof.
  intros Hzonal Hrect Hh Hw Hcells Hopen Hmask Hrun.
  destruct (process_acts env clip_box features r_img path)
    as (res & rows & new & Hacts & _ & _ & _ & Hret).
  destruct (acts_run _ _ _ _ _ _ _ Hacts Hrun) as (<- & Hcsv & _).
  destruct (Hret eq_refl)
    as (pop' & p_img' & aff' & rural0 & urban0 & rs & us & year
        & (Hopen' & Hmask' & Hok) & Hy & Hrows & _).
  rewrite Hopen in Hopen'. injection Hopen' as <-.
  rewrite Hmask in Hmask'. injection Hmask' as <- <-.
  destruct Hok as ((rural_pop & urban_pop & H1 & H0 & Hr0 & Hu0) & Hzr & Hzu).
  rewrite Hzonal in Hzr, Hzu. injection Hzr as <-. injection Hzu as <-.
  exists rows. split; [done|].
  unfold year_rows in Hrows. rewrite zip_fmap_diag in Hrows.
  apply Forall2_fmap_l in Hrows.
  apply Forall2_same_length_lookup. split; [by eapply Forall2_length|].
  intros z f row Hf Hrow.
  destruct (Forall2_lookup_lr _ _ _ _ _ _ Hrows Hf Hrow)
    as (i & n & _ & _ & ->). simpl.
  destruct (zone_sums r_img p_img rural_pop urban_pop rural0 urban0
              (cells_of f aff)) as (Ha & Hb & Hab); try done.
  { apply Hcells. by eapply list_elem_of_lookup_2. }
  by eexists i, n, (PyStr year), _, _.
Qed.

End Partition.

(** [rural_plus_urban] on the example data, for the raster of 2012,
    which has a second band: zone A has 92 rural and 63 urban
    inhabitants; of the 70 people on the two pixels of zone B, the 9 on
    the no-data pixel are counted nowhere. *)
Lemma rural_plus_urban_witness :
  ∃ rows,
    Forall2 (λ f row,
      ∃ i n y a b,
        row = [i; n; y; PyNum a; PyNum b] ∧
        a + b = zone_sum
                  (filter (λ c, classified (item 0 Example.r_img 0 c.1 c.2))
                     (Example.cells_of f ())) (nth 0 Example.p2012 []))
      [Example.zone_a; Example.zone_b] rows ∧
    rows = [[PyNum 101; PyStr "Flores"; PyStr "2012"; PyNum 92; PyNum 63];
            [PyNum 102; PyStr "Coban"; PyStr "2012"; PyNum 0; PyNum 61]].
Proof.
  pose (e := Example.env []).
  pose (w' := (process e [0%nat] [Example.zone_a; Example.zone_b]
                 Example.r_img "data/lspop2012/hdr.adf" Example.fresh).2).
  assert (process e [0%nat] [Example.zone_a; Example.zone_b]
            Example.r_img "data/lspop2012/hdr.adf" Example.fresh
          = (Return (), w')) as Hrun by (vm_compute; reflexivity).
  destruct (rural_plus_urban e Example.cells_of [0%nat]
              [Example.zone_a; Example.zone_b] Example.r_img
              "data/lspop2012/hdr.adf" Example.fresh w'
              "data/lspop2012/hdr.adf" Example.p2012 ())
    as (rows & Hcsv & Hrows); try done.
  - apply example_rect.
  - intros f Hf.
    repeat (apply elem_of_cons in Hf as [->|Hf];
            [repeat constructor; simpl; lia|]).
    by apply elem_of_nil in Hf.
  - exists rows. split.
    + eapply Forall2_impl; [exact Hrows|].
      intros f row (i & n & y & a & b & -> & _ & _ & Hab).
      by exists i, n, y, a, b.
    + assert (csv_file w' =
        [[PyNum 101; PyStr "Flores"; PyStr "2012"; PyNum 92; PyNum 63];
         [PyNum 102; PyStr "Coban"; PyStr "2012"; PyNum 0; PyNum 61]])
        as Hw by (vm_compute; reflexivity).
      rewrite Hw in Hcsv. simpl in Hcsv. congruence.
Defined.

End Partition.
Module Determinism.
Import PyStr NumPy Py Script Zonal Spec.
Import YearFacts EffectFacts BodyFacts MainFacts LoopFacts.

Abbreviation pattern := "data/lspop*/hdr.adf"%string.

Section Determinism.
Context {Geometry Affine Dataset Err : Type}.
Variable env : Env Geometry Affine Dataset Err.

(** C10.  Two runs over the same inputs, started on any two contents of
    the output file, end with the same outcome.  When the run gets to
    open the output file (the reads before the loop and the open itself
    succeed), the records of the rounds are the same, round by round in
    the order of the sorted listing, and the file the run leaves is the
    header followed by exactly these records: nothing of what the file
    held before is left, so the two runs leave the same file. *)
Theorem run_deterministic :
  (∀ w1 w2, (main env w1).1 = (main env w2).1) ∧
  (∀ boundingbox features rural r_img r_transform,
     preamble_ok env boundingbox features rural r_img r_transform →
     ∃ res blocks news,
       loop_run (process env (geometry <$> boundingbox) features r_img)
         (sorted (glob env pattern)) res blocks news ∧
       ∀ w, main env w =
         (res,
          mkWorld ([PyStr "id"; PyStr "name"; PyStr "year";
                    PyStr "rural_pop"; PyStr "urban_pop"] :: concat blocks)
            (calls w ++ preamble_calls boundingbox rural ++ concat news))) ∧
  (∀ boundingbox features rural r_img r_transform,
     preamble_ok env boundingbox features rural r_img r_transform →
     ∀ w1 w2,
       csv_file (main env w1).2 = csv_file (main env w2).2 ∧
       ∃ rows,
         csv_file (main env w1).2 =
           [PyStr "id"; PyStr "name"; PyStr "year"; PyStr "rural_pop";
            PyStr "urban_pop"] :: rows).
Proof.
  assert (∀ boundingbox features rural r_img r_transform,
     preamble_ok env boundingbox features rural r_img r_transform →
     ∃ res blocks news,
       loop_run (process env (geometry <$> boundingbox) features r_img)
         (sorted (glob env pattern)) res blocks news ∧
       ∀ w, main env w =
         (res,
          mkWorld ([PyStr "id"; PyStr "name"; PyStr "year";
                    PyStr "rural_pop"; PyStr "urban_pop"] :: concat blocks)
            (calls w ++ preamble_calls boundingbox rural ++ concat news)))
    as Hopen.
  { intros bb fs rural r_img r_tr Hpre.
    destruct (process_loop env (geometry <$> bb) fs r_img
                (sorted (glob env pattern)))
      as (res & blocks & news & Hloop).
    exists res, blocks, news. split; [done|].
    pose proof (loop_run_acts _ _ _ _ _ Hloop) as Hacts.
    exact (main_after_preamble env _ _ _ _ _ _ _ _ Hpre Hacts). }
  split_and!.
  - intros w1 w2.
    destruct (main_cases env)
      as [(bb & fs & rural & r_img & r_tr & Hpre)|(e & new & Hfail & _)].
    + destruct (Hopen _ _ _ _ _ Hpre) as (res & blocks & news & _ & Hmain).
      by rewrite !Hmain.
    + by rewrite !Hfail.
  - exact Hopen.
  - intros bb fs rural r_img r_tr Hpre w1 w2.
    destruct (Hopen _ _ _ _ _ Hpre) as (res & blocks & news & _ & Hmain).
    rewrite !Hmain. split; [done|]. by exists (concat blocks).
Qed.

End Determinism.

(** [run_deterministic] on the example data: what an earlier run left
    behind does not show in the file. *)
Lemma run_deterministic_witness :
  preamble_ok (Example.env ["data/lspop2010/hdr.adf"]) [Example.box]
    [Example.zone_a; Example.zone_b] rural_region Example.r_img () ∧
  csv_file (main (Example.env ["data/lspop2010/hdr.adf"]) Example.stale).2 =
    csv_file (main (Example.env ["data/lspop2010/hdr.adf"]) Example.fresh).2 ∧
  csv_file (main (Example.env ["data/lspop2010/hdr.adf"]) Example.stale).2 =
    [[PyStr "id"; PyStr "name"; PyStr "year"; PyStr "rural_pop";
      PyStr "urban_pop"];
     [PyNum 101; PyStr "Flores"; PyStr "2010"; PyNum 90; PyNum 60];
     [PyNum 102; PyStr "Coban"; PyStr "2010"; PyNum 0; PyNum 60]].
Proof.
  assert (preamble_ok (Example.env ["data/lspop2010/hdr.adf"]) [Example.box]
            [Example.zone_a; Example.zone_b] rural_region Example.r_img ())
    as Hpre by (by repeat split).
  split; [exact Hpre|].
  destruct (run_deterministic (Example.env ["data/lspop2010/hdr.adf"]))
    as (_ & _ & Hsame).
  destruct (Hsame _ _ _ _ _ Hpre Example.stale Example.fresh) as (Heq & _).
  split; [exact Heq|]. vm_compute. reflexivity.
Defined.

End Determinism.
(** ** The two grids of a round *)

Module Selection.
Import PyStr NumPy Py Script Zonal Spec More.
Import NumPyFacts SelectFacts YearFacts EffectFacts BodyFacts.

Section Selection.
Context {Geometry Affine Dataset Err : Type}.
Variable env : Env Geometry Affine Dataset Err.

(** C5.  For a land-use array and a clipped population array of one
    shape, with at least one pixel, both selections of a round succeed
    and keep the shape.  The rural array holds the population where the
    mask is 1 and 0 elsewhere, the urban array holds it where the mask
    is 0 and 0 elsewhere; where the mask is neither (3, no-data, or
    anything else) both hold 0, and such a pixel adds nothing to the
    rural or to the urban sum of a zone it lies in.  The first bands of
    these two arrays are the grids the round sums: it is on them that
    [zonal_stats] is applied, a failure of [zonal_stats] on the one or
    on the other is the failure of the round, and the rows of a round
    that returns hold the sums that [zonal_stats] gave for them. *)
Theorem where_rural_urban features r_img p_img p_transform pop_raster :
  rect r_img → shape r_img = shape p_img → nonempty p_img →
  ∃ rural_pop urban_pop rural0 urban0,
    where_ (eq_scalar r_img 1) p_img 0 = Some rural_pop ∧
    where_ (eq_scalar r_img 0) p_img 0 = Some urban_pop ∧
    shape rural_pop = shape p_img ∧ shape urban_pop = shape p_img ∧
    rural_pop !! 0%nat = Some rural0 ∧ urban_pop !! 0%nat = Some urban0 ∧
    (∀ i j k,
      (i < (shape p_img).1.1)%nat → (j < (shape p_img).1.2)%nat →
      (k < (shape p_img).2)%nat →
      item 0 rural_pop i j k =
        (if decide (item 0 r_img i j k = 1) then item 0 p_img i j k else 0) ∧
      item 0 urban_pop i j k =
        (if decide (item 0 r_img i j k = 0) then item 0 p_img i j k else 0) ∧
      (item 0 r_img i j k ≠ 0 → item 0 r_img i j k ≠ 1 →
       item 0 rural_pop i j k = 0 ∧ item 0 urban_pop i j k = 0)) ∧
    (∀ c cells,
      in_grid (shape p_img).1.2 (shape p_img).2 c →
      item 0 r_img 0 c.1 c.2 ≠ 0 → item 0 r_img 0 c.1 c.2 ≠ 1 →
      zone_sum (c :: cells) rural0 = zone_sum cells rural0 ∧
      zone_sum (c :: cells) urban0 = zone_sum cells urban0) ∧
    (∀ e,
      zonal_stats env features rural0 p_transform = Raise e →
      acts (aggregate env features r_img p_img p_transform pop_raster)
        (Raise (LibError e)) [] [ZonalStats features rural0 p_transform]) ∧
    (∀ rural_stats e,
      zonal_stats env features rural0 p_transform = Return rural_stats →
      zonal_stats env features urban0 p_transform = Raise e →
      acts (aggregate env features r_img p_img p_transform pop_raster)
        (Raise (LibError e)) []
        [ZonalStats features rural0 p_transform;
         ZonalStats features urban0 p_transform]) ∧
    (∀ rural_stats urban_stats year,
      zonal_stats env features rural0 p_transform = Return rural_stats →
      zonal_stats env features urban0 p_transform = Return urban_stats →
      year_of (Err:=Err) pop_raster = Return year →
      Forall (λ z, has_keys z.1)
        (zip features (zip rural_stats urban_stats)) →
      ∃ rows,
        acts (aggregate env features r_img p_img p_transform pop_raster)
          (Return ()) rows
          [ZonalStats features rural0 p_transform;
           ZonalStats features urban0 p_transform] ∧
        year_rows features rural_stats urban_stats year rows) ∧
    (∀ w w',
      aggregate env features r_img p_img p_transform pop_raster w =
        (Return (), w') →
      ∃ rural_stats urban_stats year rows,
        zonal_stats env features rural0 p_transform = Return rural_stats ∧
        zonal_stats env features urban0 p_transform = Return urban_stats ∧
        year_of (Err:=Err) pop_raster = Return year ∧
        year_rows features rural_stats urban_stats year rows ∧
        w' = mkWorld (csv_file w ++ rows)
               (calls w ++ [ZonalStats features rural0 p_transform;
                            ZonalStats features urban0 p_transform])).
Proof.
  intros Hr Hs (Hband & _).
  destruct (where_selects r_img p_img Hr Hs)
    as (rural_pop & urban_pop & H1 & H0 & Hs1 & Hs0 & Hpix & Hzone).
  destruct (lookup_lt_is_Some_2 rural_pop 0%nat) as [rural0 Hr0].
  { change (length rural_pop) with (shape rural_pop).1.1. by rewrite Hs1. }
  destruct (lookup_lt_is_Some_2 urban_pop 0%nat) as [urban0 Hu0].
  { change (length urban_pop) with (shape urban_pop).1.1. by rewrite Hs0. }
  exists rural_pop, urban_pop, rural0, urban0.
  do 7 (split; [done|]). split_and!.
  - intros c cells. by apply Hzone.
  - intros e Hzr. by eapply aggregate_fails_rural.
  - intros rs e Hzr Hzu. by eapply aggregate_fails_urban.
  - intros rs us year Hzr Hzu Hy Hkeys.
    apply aggregate_returns; [|done..].
    split; [by exists rural_pop, urban_pop|done].
  - intros w w' Hrun.
    destruct (aggregate_returned env _ _ _ _ _ _ _ Hrun)
      as (r0 & u0 & rs & us & year & rows
          & ((rp & up & H1' & H0' & Hr0' & Hu0') & Hzr & Hzu)
          & Hy & Hrows & ->).
    assert (rp = rural_pop) as -> by congruence.
    assert (up = urban_pop) as -> by congruence.
    assert (r0 = rural0) as -> by congruence.
    assert (u0 = urban0) as -> by congruence.
    by exists rs, us, year, rows.
Qed.

End Selection.

(** [where_rural_urban] on the example rasters: the two grids of 2010,
    and the round that sums them. *)
Lemma where_rural_urban_witness :
  ∃ rural0 urban0 rows,
    rural0 = [[0; 0; 0; 0]; [40; 50; 0; 0]] ∧
    urban0 = [[10; 20; 30; 0]; [0; 0; 60; 0]] ∧
    rows = [[PyNum 101; PyStr "Flores"; PyStr "2010"; PyNum 90; PyNum 60];
            [PyNum 102; PyStr "Coban"; PyStr "2010"; PyNum 0; PyNum 60]] ∧
    acts (aggregate (Example.env []) [Example.zone_a; Example.zone_b]
            Example.r_img Example.p2010 () "data/lspop2010/hdr.adf")
      (Return ()) rows
      [ZonalStats [Example.zone_a; Example.zone_b] rural0 ();
       ZonalStats [Example.zone_a; Example.zone_b] urban0 ()].
Proof.
  pose proof example_rect as Hr.
  assert (shape Example.r_img = shape Example.p2010) as Hs by reflexivity.
  assert (nonempty Example.p2010) as Hband by (repeat split; simpl; lia).
  destruct (where_rural_urban (Example.env [])
              [Example.zone_a; Example.zone_b] _ _ ()
              "data/lspop2010/hdr.adf" Hr Hs Hband)
    as (rp & up & r0 & u0 & H1 & H0 & _ & _ & Hr0 & Hu0 & _ & _ & _ & _
        & Hret & _).
  vm_compute in H1. injection H1 as <-.
  vm_compute in H0. injection H0 as <-.
  injection Hr0 as <-. injection Hu0 as <-.
  destruct (Hret _ _ "2010" eq_refl eq_refl) as (rows & Hacts & Hrows).
  { reflexivity. }
  { repeat constructor; by eexists. }
  exists [[0; 0; 0; 0]; [40; 50; 0; 0]], [[10; 20; 30; 0]; [0; 0; 60; 0]], rows.
  do 2 (split; [reflexivity|]). split; [|exact Hacts].
  pose proof (Hacts Example.fresh) as Hrun.
  vm_compute in Hrun. by injection Hrun as <-.
Defined.

End Selection.

(** * Further properties of the script *)

(** ** Year extraction at its edges, and [str.split] *)

Module SplitFacts.
Import PyStr PyStrFacts Py Script Spec More YearFacts.

Lemma app_assoc_str (a b c : string) : (a +:+ b) +:+ c = a +:+ b +:+ c.
Proof.
  induction a as [|x a IH]; [done|].
  change ((String x a +:+ b) +:+ c) with (String x ((a +:+ b) +:+ c)).
  by rewrite IH.
Qed.

Lemma app_length_str (a b : string) :
  String.length (a +:+ b) = (String.length a + String.length b)%nat.
Proof.
  induction a as [|x a IH]; [done|].
  change (String x a +:+ b) with (String x (a +:+ b)). simpl. by rewrite IH.
Qed.

Lemma occurs_at_app_l sep a t n :
  occurs_at sep a n → occurs_at sep (a +:+ t) n.
Proof.
  intros (x & y & -> & Hn). exists x, (y +:+ t). split; [|done].
  by rewrite !app_assoc_str.
Qed.

Lemma occurs_at_empty sep n : sep ≠ EmptyString → ¬ occurs_at sep EmptyString n.
Proof.
  intros Hsep (a & b & Hab & _).
  destruct a; [|done]. destruct sep; [done|]. discriminate Hab.
Qed.

Lemma split_fuel_nonempty n sep s : split_fuel n sep s ≠ [].
Proof.
  destruct n; simpl; [done|]. by destruct (split_first sep s) as [[??]|].
Qed.

Lemma join_cons sep p rest :
  rest ≠ [] → join sep (p :: rest) = p +:+ sep +:+ join sep rest.
Proof. by destruct rest. Qed.

Lemma split_fuel_join n sep s :
  sep ≠ EmptyString → (String.length s ≤ n)%nat →
  join sep (split_fuel n sep s) = s ∧
  Forall (λ piece, ∀ m, ¬ occurs_at sep piece m) (split_fuel n sep s).
Proof.
  intros Hsep. revert s. induction n as [|n IH]; intros s Hlen.
  - destruct s; [|simpl in Hlen; lia]. simpl. split; [done|].
    constructor; [|constructor]. intros m. by apply occurs_at_empty.
  - simpl. destruct (split_first sep s) as [[a b]|] eqn:Hcut.
    + apply split_first_Some in Hcut as [-> Hmin].
      destruct (IH b) as [Hjoin Hfree].
      { rewrite !app_length_str in Hlen.
        destruct sep; [done|]. simpl in Hlen. lia. }
      split.
      * rewrite join_cons by apply split_fuel_nonempty. by rewrite Hjoin.
      * constructor; [|done]. intros m Hm.
        pose proof Hm as (x & y & Hxy & Hx).
        assert (String.length a ≤ m)%nat as Hle.
        { apply Hmin. by apply occurs_at_app_l. }
        rewrite Hxy, !app_length_str in Hle.
        destruct sep; [done|]. simpl in Hle. lia.
    + split; [done|]. constructor; [|constructor].
      by apply split_first_None.
Qed.

(** Line 88, [str.split]: for a separator that is not empty, the pieces
    joined with the separator give the string back, and no piece contains
    the separator. *)
Theorem split_join sep s :
  sep ≠ EmptyString →
  join sep (split sep s) = s ∧
  Forall (λ piece, ∀ m, ¬ occurs_at sep piece m) (split sep s).
Proof. intros Hsep. by apply split_fuel_join. Qed.

(** [split_join] on a path with two occurrences of the separator. *)
Lemma split_join_witness :
  split "/" "data/lspop2005/hdr.adf" = ["data"; "lspop2005"; "hdr.adf"] ∧
  join "/" (split "/" "data/lspop2005/hdr.adf") = "data/lspop2005/hdr.adf".
Proof.
  split; [reflexivity|].
  apply (split_join "/" "data/lspop2005/hdr.adf"). discriminate.
Defined.

Section Year.
Context {Err : Type}.

(** Line 88: the year extraction raises exactly when the path does not
    contain ["lspop"], and what it raises is an [IndexError]; a missing
    ["/hdr.adf"] never makes it raise. *)
Theorem year_of_raises_iff path e :
  year_of (Err:=Err) path = Raise e ↔
  e = IndexError ∧ ∀ n, ¬ occurs_at "lspop" path n.
Proof.
  rewrite year_of_unfold.
  destruct (split_first "lspop" path) as [[a rest]|] eqn:Hcut.
  - split; [done|]. intros [_ Hno].
    apply split_first_Some in Hcut as [Hpath _].
    destruct (Hno (String.length a)). by exists a, rest.
  - split.
    + intros [= <-]. split; [done|]. by apply split_first_None.
    + by intros [-> _].
Qed.

(** Line 88: when ["/hdr.adf"] does not follow the leftmost ["lspop"],
    the year is all the text after that ["lspop"]. *)
Theorem year_of_without_suffix path a rest :
  first_cut "lspop" path a rest →
  (∀ n, ¬ occurs_at "/hdr.adf" rest n) →
  year_of (Err:=Err) path = Return rest.
Proof.
  intros Hcut%first_cut_split_first Hno.
  rewrite year_of_unfold, Hcut.
  destruct (split_first "/hdr.adf" rest) as [[y b]|] eqn:Hsuf; [|done].
  apply split_first_Some in Hsuf as [Hrest _].
  destruct (Hno (String.length y)). by exists y, b.
Qed.

End Year.

(** [year_of_without_suffix] on a path that names the directory only. *)
Lemma year_of_without_suffix_witness :
  first_cut "lspop" "data/lspop2005" "data/" "2005" ∧
  (∀ n, ¬ occurs_at "/hdr.adf" "2005" n) ∧
  year_of (Err:=unit) "data/lspop2005" = Return "2005".
Proof.
  assert (first_cut "lspop" "data/lspop2005" "data/" "2005") as Hcut
    by (by apply split_first_Some).
  assert (∀ n, ¬ occurs_at "/hdr.adf" "2005" n) as Hno
    by (by apply split_first_None).
  split; [exact Hcut|]. split; [exact Hno|].
  exact (year_of_without_suffix _ _ _ Hcut Hno).
Defined.

End SplitFacts.

(** ** Rounds that raise on a missing key or on a shape, and rounds with
       fewer statistics than zones *)

Module RoundFacts.
Import PyStr PyStrFacts NumPy Py Script Zonal Spec More.
Import NumPyFacts SelectFacts YearFacts EffectFacts BodyFacts MainFacts.

Lemma where_None_iff cond x y :
  where_ cond x y = None ↔ bshape (shape cond) (shape x) = None.
Proof.
  unfold where_.
  by destruct (bshape (shape cond) (shape x)) as [[[b h] w]|].
Qed.


Section Rounds.
Context {Geometry Affine Dataset Err : Type}.
Variable env : Env Geometry Affine Dataset Err.

Abbreviation M := (M (Geometry:=Geometry) (Affine:=Affine)
                     (Dataset:=Dataset) (Err:=Err)).

Ltac by_eqs :=
  unfold index;
  repeat match goal with H : _ = _ |- _ => rewrite H end;
  simpl; reflexivity.
Ltac returns :=
  eapply acts_bind;
  [first [eapply acts_lib_Return; first [eassumption|reflexivity]
         |eapply acts_pure_eq; by_eqs]|];
  cbv beta.
Ltac raises :=
  eapply acts_bind_Raise;
  first [eapply acts_lib_Raise; first [eassumption|reflexivity]
        |eapply acts_pure_eq; by_eqs].

Lemma record_missing (f : Feature Geometry) rs us year key :
  missing_key f = Some key →
  record (Err:=Err) f rs us year = Raise (KeyError key).
Proof.
  unfold missing_key, record, getitem.
  destruct (properties f !! "ID_2"); [|by intros [= <-]].
  destruct (properties f !! "NAME_2"); [done|by intros [= <-]].
Qed.


(** The loop over the zones stops at the first zone that lacks a key. *)
Lemma records_first_missing year
    (zs : list (Feature Geometry * (Stat * Stat))) z f st key :
  zs !! z = Some (f, st) →
  Forall (λ x, has_keys x.1) (take z zs) →
  missing_key f = Some key →
  records (Err:=Err) year zs = Raise (KeyError key).
Proof.
  revert z. induction zs as [|[f' [rs us]] zs IH]; intros z Hz Hpre Hkey;
    [done|].
  destruct z as [|z]; simpl in Hz.
  - destruct st as [rs' us']. injection Hz as -> -> ->. cbn [records].
    by rewrite (record_missing _ _ _ _ _ Hkey).
  - simpl in Hpre. apply Forall_cons in Hpre as [Hf' Hpre].
    cbn [records].
    destruct (record_has_keys (Err:=Err) f' rs us year Hf') as [t ->].
    by rewrite (IH z Hz Hpre Hkey).
Qed.


(** Lines 94-104: a zone that lacks ["ID_2"] or ["NAME_2"] makes its
    round raise a [KeyError] for the key read first among the missing,
    after both zonal sums were computed, and without a row for that year,
    not even for the zones before it. *)
Theorem missing_key_aborts_year clip_box features r_img path
    pop p_img aff rural0 urban0 rural_stats urban_stats year z f st key :
  year_reads env clip_box features r_img path pop p_img aff
    rural0 urban0 rural_stats urban_stats →
  year_of (Err:=Err) path = Return year →
  zip features (zip rural_stats urban_stats) !! z = Some (f, st) →
  Forall (λ x, has_keys x.1)
    (take z (zip features (zip rural_stats urban_stats))) →
  missing_key f = Some key →
  acts (process env clip_box features r_img path) (Raise (KeyError key)) []
    [RasterioOpen path; Mask pop clip_box;
     ZonalStats features rural0 aff; ZonalStats features urban0 aff].
Proof.
  intros (Hopen & Hmask & (rural_pop & urban_pop & H1 & H0 & Hr0 & Hu0)
          & Hzr & Hzu) Hy Hz Hpre Hkey.
  pose proof (records_first_missing year _ _ _ _ _ Hz Hpre Hkey) as Hrec.
  unfold process, aggregate.
  eapply acts_as; [do 9 returns; raises|done..].
Qed.

(** Line 94: [zip] stops with the shortest list.  When the statistics
    are fewer than the zones, the round does not raise: it writes the
    rows of the first zones, as many as the shorter list of statistics
    has, and none for the others. *)
Theorem short_statistics_truncate clip_box features r_img path
    pop p_img aff rural0 urban0 rural_stats urban_stats year :
  year_reads env clip_box features r_img path pop p_img aff
    rural0 urban0 rural_stats urban_stats →
  year_of (Err:=Err) path = Return year →
  Forall has_keys features →
  ∃ rows,
    acts (process env clip_box features r_img path) (Return ()) rows
      [RasterioOpen path; Mask pop clip_box;
       ZonalStats features rural0 aff; ZonalStats features urban0 aff] ∧
    length rows =
      (length features `min` (length rural_stats `min` length urban_stats))%nat ∧
    ∀ i row, rows !! i = Some row →
      ∃ f rs us, features !! i = Some f ∧ rural_stats !! i = Some rs ∧
                 urban_stats !! i = Some us ∧ zone_row year f rs us row.
Proof.
  intros Hreads Hy Hkeys.
  destruct (process_returns env clip_box features r_img path _ _ _ _ _ _ _ _
              Hreads Hy) as (rows & Hacts & Hrows).
  { apply Forall_forall. intros [f st] Hin. simpl.
    rewrite Forall_forall in Hkeys. apply Hkeys.
    apply list_elem_of_lookup in Hin as [i Hi].
    rewrite lookup_zip_with in Hi.
    destruct (features !! i) as [f'|] eqn:Hf; [|done]. simpl in Hi.
    destruct (zip rural_stats urban_stats !! i); [|done].
    injection Hi as -> _. by eapply list_elem_of_lookup_2. }
  exists rows. split; [done|]. unfold year_rows in Hrows. split.
  - rewrite <- (Forall2_length _ _ _ Hrows). by rewrite !length_zip_with.
  - intros i row Hrow.
    destruct (Forall2_lookup_r _ _ _ _ _ Hrows Hrow) as ([f [rs us]] & Hz & Hzr).
    rewrite !lookup_zip_with in Hz.
    destruct (features !! i) as [f'|]; [|done]. simpl in Hz.
    destruct (rural_stats !! i) as [rs'|]; [|done]. simpl in Hz.
    destruct (urban_stats !! i) as [us'|]; [|done]. simpl in Hz.
    injection Hz as -> -> ->. by exists f, rs, us.
Qed.

(** Lines 72-74, for arrays none of whose axes is empty (on these
    [shape] is the shape numpy keeps): when the shapes of the land-use
    array and of a clipped population array do not broadcast, the round
    raises a [ValueError] right after the clip: no zonal sum is computed
    and no row written. *)
Theorem shape_mismatch_aborts clip_box features r_img path pop p_img aff :
  rect r_img → nonempty r_img →
  rect p_img → nonempty p_img →
  rasterio_open env path = Return pop →
  mask env pop clip_box = Return (p_img, aff) →
  bshape (shape r_img) (shape p_img) = None →
  acts (process env clip_box features r_img path) (Raise ValueError) []
    [RasterioOpen path; Mask pop clip_box].
Proof.
  intros _ _ _ _ Hopen Hmask Hshape.
  assert (where_ (eq_scalar r_img 1) p_img 0 = None) as H1.
  { apply where_None_iff. by rewrite shape_eq_scalar. }
  unfold process, aggregate.
  eapply acts_as; [do 2 returns; raises|done..].
Qed.

End Rounds.

(** [missing_key_aborts_year]: the second zone has no name. *)
Lemma missing_key_aborts_year_witness :
  process (env_of [Example.zone_a; zone_c] 0 []) [0%nat]
    [Example.zone_a; zone_c] Example.r_img "data/lspop2010/hdr.adf"
    Example.stale =
  (Raise (KeyError "NAME_2"),
   mkWorld [[PyStr "left"; PyStr "over"]]
     [RasterioOpen "data/lspop2010/hdr.adf";
      Mask "data/lspop2010/hdr.adf" [0%nat];
      ZonalStats [Example.zone_a; zone_c] [[0; 0; 0; 0]; [40; 50; 0; 0]] ();
      ZonalStats [Example.zone_a; zone_c] [[10; 20; 30; 0]; [0; 0; 60; 0]] ()]).
Proof.
  pose (e := env_of [Example.zone_a; zone_c] 0 []).
  assert (year_reads e [0%nat] [Example.zone_a; zone_c] Example.r_img
            "data/lspop2010/hdr.adf" "data/lspop2010/hdr.adf" Example.p2010 ()
            [[0; 0; 0; 0]; [40; 50; 0; 0]] [[10; 20; 30; 0]; [0; 0; 60; 0]]
            [mkStat (PyNum 90); mkStat (PyNum 0)]
            [mkStat (PyNum 60); mkStat (PyNum 60)]) as Hreads.
  { split; [reflexivity|]. split; [reflexivity|]. split; [|by split].
    eexists _, _. by repeat split. }
  assert (year_of (Err:=string) "data/lspop2010/hdr.adf" = Return "2010")
    as Hy by reflexivity.
  apply (missing_key_aborts_year e _ _ _ _ _ _ _ _ _ _ _ _ 1%nat zone_c
           (mkStat (PyNum 0), mkStat (PyNum 60)) "NAME_2" Hreads Hy).
  - reflexivity.
  - constructor; [|constructor]. split; by eexists.
  - reflexivity.
Defined.

(** [short_statistics_truncate]: two zones, one statistic. *)
Lemma short_statistics_truncate_witness :
  ∃ rows,
    acts (process (env_of [Example.zone_a; Example.zone_b] 1 []) [0%nat]
            [Example.zone_a; Example.zone_b] Example.r_img
            "data/lspop2010/hdr.adf") (Return ()) rows
      [RasterioOpen "data/lspop2010/hdr.adf";
       Mask "data/lspop2010/hdr.adf" [0%nat];
       ZonalStats [Example.zone_a; Example.zone_b]
         [[0; 0; 0; 0]; [40; 50; 0; 0]] ();
       ZonalStats [Example.zone_a; Example.zone_b]
         [[10; 20; 30; 0]; [0; 0; 60; 0]] ()] ∧
    length rows = 1%nat.
Proof.
  pose (e := env_of [Example.zone_a; Example.zone_b] 1 []).
  assert (year_reads e [0%nat] [Example.zone_a; Example.zone_b] Example.r_img
            "data/lspop2010/hdr.adf" "data/lspop2010/hdr.adf" Example.p2010 ()
            [[0; 0; 0; 0]; [40; 50; 0; 0]] [[10; 20; 30; 0]; [0; 0; 60; 0]]
            [mkStat (PyNum 90)] [mkStat (PyNum 60)]) as Hreads.
  { split; [reflexivity|]. split; [reflexivity|]. split; [|by split].
    eexists _, _. by repeat split. }
  assert (year_of (Err:=string) "data/lspop2010/hdr.adf" = Return "2010")
    as Hy by reflexivity.
  destruct (short_statistics_truncate e _ _ _ _ _ _ _ _ _ _ _ _ Hreads Hy)
    as (rows & Hacts & Hlen & _).
  { repeat constructor; by eexists. }
  by exists rows.
Defined.

(** [shape_mismatch_aborts]: the raster of 2014 has three rows, the
    land-use raster two. *)
Lemma shape_mismatch_aborts_witness :
  process (env_of [Example.zone_a; Example.zone_b] 0 []) [0%nat]
    [Example.zone_a; Example.zone_b] Example.r_img "data/lspop2014/hdr.adf"
    Example.stale =
  (Raise ValueError,
   mkWorld [[PyStr "left"; PyStr "over"]]
     [RasterioOpen "data/lspop2014/hdr.adf";
      Mask "data/lspop2014/hdr.adf" [0%nat]]).
Proof.
  assert (rect p2014) as Hp.
  { intros b Hb. apply list_elem_of_singleton in Hb as ->.
    split; [done|]. intros r Hrow.
    repeat (apply elem_of_cons in Hrow as [->|Hrow]; [done|]).
    by apply elem_of_nil in Hrow. }
  apply (shape_mismatch_aborts
           (env_of [Example.zone_a; Example.zone_b] 0 []) [0%nat] _ _
           "data/lspop2014/hdr.adf" "data/lspop2014/hdr.adf" p2014 ()
           example_rect);
    [repeat split; simpl; lia|exact Hp|repeat split; simpl; lia
    |reflexivity..].
Defined.

End RoundFacts.

(** ** The order of discovery, the calls of a run, the width of rows *)

Module RunFacts.
Import PyStr NumPy Py Script Zonal Spec More.
Import YearFacts EffectFacts BodyFacts MainFacts OrderFacts LoopFacts.

Abbreviation pattern := "data/lspop*/hdr.adf"%string.

(** Sorting forgets the order of its input. *)
Lemma sorted_perm l1 l2 : l1 ≡ₚ l2 → sorted l1 = sorted l2.
Proof.
  intros Hperm.
  apply (Sorted_unique String.le); try apply sorted_is_sorted.
  by rewrite !(proj2 (sorted_is_sorted _)).
Qed.




Section Run.
Context {Geometry Affine Dataset Err : Type}.
Variable env : Env Geometry Affine Dataset Err.

(** Lines 36-37 and 64-65: a run does not depend on the order in which
    the directory listing returns the rasters. *)
Theorem listing_order_irrelevant listing1 listing2 :
  (∀ pat, listing1 pat ≡ₚ listing2 pat) →
  ∀ w, main (with_glob env listing1) w = main (with_glob env listing2) w.
Proof.
  intros Hperm w.
  unfold main, get_pop_rasters, with_glob, mbind, M_bind, mret, M_ret, lib,
    open_write, writeheader, writerow.
  cbn [fiona_open rasterio_open mask zonal_stats glob open_w].
  rewrite (sorted_perm _ _ (Hperm (pop_dir +:+ "lspop*/hdr.adf"))).
  reflexivity.
Qed.

Lemma rounds_calls clip_box features r_img paths news :
  Forall2 (λ q n, ∃ b,
             acts (process env clip_box features r_img q) (Return ()) b n)
    paths news →
  length (filter (λ c, is_mask c) (concat news)) = length paths ∧
  length (filter (λ c, is_zonal c) (concat news)) = (2 * length paths)%nat.
Proof.
  induction 1 as [|q n paths news [b Hq] _ [IHm IHz]]; [done|].
  destruct (process_post env _ _ _ _ _ _ _ Hq) as (_ & _ & _ & Hret).
  destruct (Hret eq_refl)
    as (pop & p_img & aff & rural0 & urban0 & rs & us & year & _ & _ & _ & ->).
  cbn [concat]. rewrite !filter_app, !length_app, IHm, IHz.
  assert (length (filter (λ c : call Geometry Affine Dataset, is_mask c)
            [RasterioOpen q; Mask pop clip_box;
             ZonalStats features rural0 aff; ZonalStats features urban0 aff])
          = 1%nat) as -> by reflexivity.
  assert (length (filter (λ c : call Geometry Affine Dataset, is_zonal c)
            [RasterioOpen q; Mask pop clip_box;
             ZonalStats features rural0 aff; ZonalStats features urban0 aff])
          = 2%nat) as -> by reflexivity.
  split; simpl; lia.
Qed.

(** Lines 54-85: a run that returns has opened the land-use raster and
    then every discovered raster once, in sorted order; it has clipped
    each of them once and computed two zonal sums per population
    raster. *)
Theorem returning_run_calls w w' :
  main env w = (Return (), w') →
  ∃ new, calls w' = calls w ++ new ∧
    opened new = rural_region :: sorted (glob env pattern) ∧
    length (filter (λ c, is_mask c) new) = S (length (glob env pattern)) ∧
    length (filter (λ c, is_zonal c) new)
      = (2 * length (glob env pattern))%nat.
Proof.
  intros Hrun.
  destruct (main_cases env)
    as [(bb & fs & rural & r_img & r_tr & Hpre)|(e & new & Hfail & _)];
    [|by rewrite Hfail in Hrun].
  destruct (process_loop env (geometry <$> bb) fs r_img
              (sorted (glob env pattern)))
    as (res & blocks & news & Hloop).
  pose proof (loop_run_acts _ _ _ _ _ Hloop) as Hacts.
  rewrite (main_after_preamble env _ _ _ _ _ _ _ _ Hpre Hacts) in Hrun.
  injection Hrun as -> <-.
  apply loop_run_returned in Hloop.
  destruct (rounds_calls _ _ _ _ _ Hloop) as [Hm Hz].
  assert (length (sorted (glob env pattern)) = length (glob env pattern))
    as Hlen by (by rewrite (proj2 (sorted_is_sorted _))).
  exists (preamble_calls bb rural ++ concat news). split; [done|]. split_and!.
  - rewrite opened_app, (opened_rounds env _ _ _ _ _ Hloop). done.
  - rewrite filter_app, length_app, Hm, Hlen.
    assert (length (filter (λ c : call Geometry Affine Dataset, is_mask c)
              (preamble_calls bb rural)) = 1%nat) as -> by reflexivity.
    done.
  - rewrite filter_app, length_app, Hz, Hlen.
    assert (length (filter (λ c : call Geometry Affine Dataset, is_zonal c)
              (preamble_calls bb rural)) = 0%nat) as -> by reflexivity.
    done.
Qed.

Lemma loop_run_blocks {A}
    (body : A → M (Geometry:=Geometry) (Affine:=Affine) (Dataset:=Dataset)
                  (Err:=Err) ()) l res blocks news :
  loop_run body l res blocks news →
  Forall (λ b, ∃ x r n, x ∈ l ∧ acts (body x) r b n) blocks.
Proof.
  induction 1 as [|x l res rows new blocks news Hx _ IH|x l e rows new Hx].
  - constructor.
  - constructor.
    + exists x, (Return ()), new. split; [by left|done].
    + eapply Forall_impl; [exact IH|].
      intros b (y & r & n & Hy & Hb). exists y, r, n. split; [by right|done].
  - constructor; [|constructor].
    exists x, (Raise e), new. split; [by left|done].
Qed.

(** Lines 58-104: a run that gets to open the output file, whether it
    returns or raises later, leaves a file that starts with the header
    and goes on with rows of five fields each, as the header has; every
    such row is the row of one of the zones for the year of one of the
    discovered rasters.  A run that does not get to open the file leaves
    it as it was. *)
Theorem rows_have_five_fields :
  (∀ boundingbox features rural r_img r_transform,
     preamble_ok env boundingbox features rural r_img r_transform →
     ∀ w, ∃ rows,
       csv_file (main env w).2 =
         [PyStr "id"; PyStr "name"; PyStr "year"; PyStr "rural_pop";
          PyStr "urban_pop"] :: rows ∧
       Forall (λ row, length row = 5%nat) rows ∧
       ∀ row, row ∈ rows →
         ∃ path year f rs us,
           path ∈ glob env pattern ∧
           year_of (Err:=Err) path = Return year ∧
           f ∈ features ∧ zone_row year f rs us row) ∧
  ((¬ ∃ boundingbox features rural r_img r_transform,
        preamble_ok env boundingbox features rural r_img r_transform) →
   ∀ w, csv_file (main env w).2 = csv_file w).
Proof.
  split.
  - intros bb fs rural r_img r_tr Hpre w.
    destruct (process_loop env (geometry <$> bb) fs r_img
                (sorted (glob env pattern)))
      as (res & blocks & news & Hloop).
    pose proof (loop_run_acts _ _ _ _ _ Hloop) as Hacts.
    rewrite (main_after_preamble env _ _ _ _ _ _ _ _ Hpre Hacts). simpl.
    exists (concat blocks). split; [done|].
    assert (∀ row, row ∈ concat blocks →
              ∃ path year f rs us,
                path ∈ glob env pattern ∧
                year_of (Err:=Err) path = Return year ∧
                f ∈ fs ∧ zone_row year f rs us row) as Hall.
    { intros row Hrow.
      apply elem_of_concat in Hrow as (block & Hrow & Hblock).
      pose proof (loop_run_blocks _ _ _ _ _ Hloop) as Hblocks.
      rewrite Forall_forall in Hblocks.
      destruct (Hblocks block Hblock) as (path & r & n & Hpath & Hp).
      destruct (process_post env _ _ _ _ _ _ _ Hp) as (_ & Hraise & _ & Hret).
      destruct r as [e|[]].
      - rewrite (Hraise e eq_refl) in Hrow. by apply elem_of_nil in Hrow.
      - destruct (Hret eq_refl)
          as (pop & p_img & aff & rural0 & urban0 & rs & us & year
              & _ & Hy & Hrows & _).
        unfold year_rows in Hrows.
        apply list_elem_of_lookup in Hrow as [i Hi].
        destruct (Forall2_lookup_r _ _ _ _ _ Hrows Hi)
          as ([f [rs' us']] & Hz & Hzr).
        exists path, year, f, rs', us'. split_and!; [|done| |done].
        + unfold sorted in Hpath. by rewrite merge_sort_Permutation in Hpath.
        + apply list_elem_of_lookup_2 in Hz. by eapply elem_of_zip_l. }
    split; [|exact Hall].
    apply Forall_forall. intros row Hrow.
    destruct (Hall row Hrow) as (_ & year & f & rs & us & _ & _ & _
                                 & i & n & _ & _ & ->).
    done.
  - intros Hno w.
    destruct (main_cases env)
      as [(bb & fs & rural & r_img & r_tr & Hpre)|(e & new & Hfail & _)].
    + destruct Hno. by exists bb, fs, rural, r_img, r_tr.
    + by rewrite Hfail.
Qed.

End Run.

(** [listing_order_irrelevant]: 2012 listed before or after 2010. *)
Lemma listing_order_irrelevant_witness :
  main (with_glob (Example.env [])
          (λ _, ["data/lspop2012/hdr.adf"; "data/lspop2010/hdr.adf"]))
    Example.fresh =
  main (with_glob (Example.env [])
          (λ _, ["data/lspop2010/hdr.adf"; "data/lspop2012/hdr.adf"]))
    Example.fresh.
Proof.
  apply (listing_order_irrelevant (Example.env [])).
  intros _. apply Permutation_swap.
Defined.

(** [returning_run_calls] on the example data with two rasters. *)
Lemma returning_run_calls_witness :
  ∃ new : list (call nat () string),
    opened new =
      [rural_region; "data/lspop2010/hdr.adf"; "data/lspop2012/hdr.adf"] ∧
    length (filter (λ c, is_mask c) new) = 3%nat ∧
    length (filter (λ c, is_zonal c) new) = 4%nat.
Proof.
  pose (e := Example.env ["data/lspop2012/hdr.adf"; "data/lspop2010/hdr.adf"]).
  assert (main e Example.fresh = (Return (), (main e Example.fresh).2))
    as Hrun by (vm_compute; reflexivity).
  destruct (returning_run_calls e _ _ Hrun) as (new & _ & Ho & Hm & Hz).
  exists new. split; [|by split].
  rewrite Ho. vm_compute. reflexivity.
Defined.

(** [rows_have_five_fields] on the example data, where the raster of
    2011 cannot be read: the rows of 2010 are in the file, after the
    header. *)
Lemma rows_have_five_fields_witness :
  ∃ rows,
    csv_file
      (main (Example.env ["data/lspop2011/hdr.adf"; "data/lspop2010/hdr.adf"])
         Example.stale).2 =
      [PyStr "id"; PyStr "name"; PyStr "year"; PyStr "rural_pop";
       PyStr "urban_pop"] :: rows ∧
    Forall (λ row, length row = 5%nat) rows ∧ length rows = 2%nat.
Proof.
  pose (e := Example.env ["data/lspop2011/hdr.adf"; "data/lspop2010/hdr.adf"]).
  assert (preamble_ok e [Example.box] [Example.zone_a; Example.zone_b]
            rural_region Example.r_img ()) as Hpre by (by repeat split).
  destruct (rows_have_five_fields e) as (Hopen & _).
  destruct (Hopen _ _ _ _ _ Hpre Example.stale) as (rows & Hfile & Hfive & _).
  exists rows. split; [exact Hfile|]. split; [exact Hfive|].
  vm_compute in Hfile. by injection Hfile as <-.
Defined.

End RunFacts.

(** ** The two selections never overlap, and what they leave out *)

Module GridFacts.
Import NumPy Py Script Zonal Spec More.
Import NumPyFacts SelectFacts Partition.











End GridFacts.

(** ** Failures before the loop, and a mismatch that goes unnoticed *)

Module EarlyFacts.
Import NumPy Py Script Zonal Spec More.
Import NumPyFacts EffectFacts MainFacts.

Section Early.
Context {Geometry Affine Dataset Err : Type}.
Variable env : Env Geometry Affine Dataset Err.

(** Lines 44-58: the bounding box is read first, then the zones, then
    the land-use raster is opened and clipped, then the output file is
    opened.  The first of these steps that fails ends the run with its
    error: no later step is taken, no directory is listed, no population
    raster is opened, and the output file is as it was. *)
Theorem early_failure_aborts :
  (∀ e, fiona_open env "data/ca_boundingbox.shp" = Raise e →
     ∀ w, main env w =
       (Raise (LibError e),
        mkWorld (csv_file w)
          (calls w ++ [FionaOpen "data/ca_boundingbox.shp"]))) ∧
  (∀ bb e,
     fiona_open env "data/ca_boundingbox.shp" = Return bb →
     fiona_open env zones = Raise e →
     ∀ w, main env w =
       (Raise (LibError e),
        mkWorld (csv_file w)
          (calls w ++ [FionaOpen "data/ca_boundingbox.shp";
                       FionaOpen zones]))) ∧
  (∀ bb features e,
     fiona_open env "data/ca_boundingbox.shp" = Return bb →
     fiona_open env zones = Return features →
     rasterio_open env rural_region = Raise e →
     ∀ w, main env w =
       (Raise (LibError e),
        mkWorld (csv_file w)
          (calls w ++ [FionaOpen "data/ca_boundingbox.shp";
                       FionaOpen zones; RasterioOpen rural_region]))) ∧
  (∀ bb features rural e,
     fiona_open env "data/ca_boundingbox.shp" = Return bb →
     fiona_open env zones = Return features →
     rasterio_open env rural_region = Return rural →
     mask env rural (geometry <$> bb) = Raise e →
     ∀ w, main env w =
       (Raise (LibError e),
        mkWorld (csv_file w)
          (calls w ++ [FionaOpen "data/ca_boundingbox.shp";
                       FionaOpen zones; RasterioOpen rural_region;
                       Mask rural (geometry <$> bb)]))) ∧
  (∀ bb features rural r_img r_transform e,
     fiona_open env "data/ca_boundingbox.shp" = Return bb →
     fiona_open env zones = Return features →
     rasterio_open env rural_region = Return rural →
     mask env rural (geometry <$> bb) = Return (r_img, r_transform) →
     open_w env "rural_urban_pop.csv" = Some e →
     ∀ w, main env w =
       (Raise (LibError e),
        mkWorld (csv_file w)
          (calls w ++ [FionaOpen "data/ca_boundingbox.shp";
                       FionaOpen zones; RasterioOpen rural_region;
                       Mask rural (geometry <$> bb);
                       OpenW "rural_urban_pop.csv"]))).
Proof.
  split_and!.
  - intros e Hbb w. unfold main, mbind, M_bind, lib. by rewrite Hbb.
  - intros bb e Hbb Hz w. unfold main, mbind, M_bind, lib.
    rewrite Hbb. simpl. rewrite Hz. simpl. by rewrite <- !(assoc_L (++)).
  - intros bb fs e Hbb Hz Hopen w. unfold main, mbind, M_bind, lib.
    rewrite Hbb. simpl. rewrite Hz. simpl. rewrite Hopen. simpl.
    by rewrite <- !(assoc_L (++)).
  - intros bb fs rural e Hbb Hz Hopen Hmask w.
    unfold main, mbind, M_bind, lib.
    rewrite Hbb. simpl. rewrite Hz. simpl. rewrite Hopen. simpl.
    rewrite Hmask. simpl. by rewrite <- !(assoc_L (++)).
  - intros bb fs rural r_img r_tr e Hbb Hz Hopen Hmask Hw w.
    unfold main, mbind, M_bind, lib, open_write.
    rewrite Hbb. simpl. rewrite Hz. simpl. rewrite Hopen. simpl.
    rewrite Hmask. simpl. rewrite Hw. simpl. by rewrite <- !(assoc_L (++)).
Qed.

End Early.

(** [early_failure_aborts]: the bounding box lies outside the land-use
    raster, and two rasters wait in vain. *)
Lemma early_failure_aborts_witness :
  main (Example.env_outside
          ["data/lspop2010/hdr.adf"; "data/lspop2012/hdr.adf"]) Example.stale =
  (Raise (LibError "Input shapes do not overlap raster."),
   mkWorld [[PyStr "left"; PyStr "over"]]
     [FionaOpen "data/ca_boundingbox.shp"; FionaOpen zones;
      RasterioOpen rural_region; Mask rural_region [0%nat]]).
Proof.
  exact (proj1 (proj2 (proj2 (proj2
           (early_failure_aborts
              (Example.env_outside
                 ["data/lspop2010/hdr.adf"; "data/lspop2012/hdr.adf"])))))
           [Example.box] [Example.zone_a; Example.zone_b] rural_region
           "Input shapes do not overlap raster."
           eq_refl eq_refl eq_refl eq_refl Example.stale).
Defined.



End EarlyFacts.
